(** * The training-and-packaging pipeline of [src/train.py]

    A shallow embedding of [get_model], of the two inference closures
    [preprocess] and [postprocess] defined inside [main], and of [main]
    itself, together with the properties of the pipeline's specification.

    Conventions.
    - Python exceptions are values of [exn]; a computation that may raise
      returns a [result].
    - TensorFlow, NumPy, Pillow, BentoML and Keras are external libraries.
      Their operations are modelled by their documented behaviour
      ([Module TF], [Module PIL], [Module NP], [Module Keras]); what they
      compute on pixels and on weights is a parameter ([PIL.codec],
      [engine]), and so are the parameter file, the dataset folder and the
      file system's answers ([environment]).
    - Logits and probabilities are real numbers, and [TF.softmax_row] is
      the exact softmax.  Where a property depends on what the float32
      kernel of TensorFlow returns, the kernel is a parameter
      ([postprocess_with]) held to the exact softmax within a tolerance. *)

From Stdlib Require Import String Ascii List Bool Arith ZArith QArith Lia.
From Stdlib Require Import Reals Lra.
Import ListNotations.

Set Implicit Arguments.

(* ================================================================= *)
(** ** Exceptions and results *)

(** The exceptions the modelled code paths can raise. *)
Inductive exn : Type :=
| IndexError            (* list index out of range *)
| InvalidArgumentError  (* raised by TensorFlow kernels *)
| ValueError            (* raised by Pillow for an empty target size *)
| KeyError (key : string)
| NotFound (name : string)     (* no such model in the BentoML store *)
| OtherError (what : string).  (* any other failure of a collaborator *)

Inductive result (A : Type) : Type :=
| Ok (a : A)
| Raise (e : exn).

Arguments Ok {A} a.
Arguments Raise {A} e.

Definition rbind {A B : Type} (m : result A) (k : A -> result B) : result B :=
  match m with
  | Ok a => k a
  | Raise e => Raise e
  end.

Declare Scope result_scope.
Delimit Scope result_scope with result.
Notation "x <- m ;; k" := (rbind m (fun x => k))
  (at level 61, m at next level, right associativity) : result_scope.

(** [l[i]] on a Python list with a non-negative index. *)
Definition getitem {A : Type} (l : list A) (i : nat) : result A :=
  match nth_error l i with
  | Some a => Ok a
  | None => Raise IndexError
  end.

(** [enumerate(l)] *)
Definition enumerate {A : Type} (l : list A) : list (nat * A) :=
  combine (seq 0 (List.length l)) l.

(* ================================================================= *)
(** ** Python dictionaries with string keys

    A [dict] keeps its keys in insertion order; assigning to a key that is
    already present replaces the value and keeps the key's position. *)

Section Dict.
Variable V : Type.

Definition dict := list (string * V).

Fixpoint dict_set (k : string) (v : V) (d : dict) : dict :=
  match d with
  | [] => [(k, v)]
  | (k', v') :: t =>
      if String.eqb k' k then (k', v) :: t else (k', v') :: dict_set k v t
  end.

Fixpoint dict_get (k : string) (d : dict) : option V :=
  match d with
  | [] => None
  | (k', v') :: t => if String.eqb k' k then Some v' else dict_get k t
  end.

Definition keys (d : dict) : list string := map fst d.
Definition values (d : dict) : list V := map snd d.
End Dict.

(* ================================================================= *)
(** ** TensorFlow operations used by [postprocess] *)

Module TF.
Open Scope R_scope.

(** A rank-2 tensor, as a list of rows. *)
Definition tensor2 := list (list R).

(** Index of the first maximum of [y :: l], where [best] is the largest
    value seen so far, found at [best_i], and [i] is the index of the
    head of [l]. *)
Fixpoint argmax_from (best_i : nat) (best : R) (i : nat) (l : list R) : nat :=
  match l with
  | [] => best_i
  | y :: t =>
      if Rlt_dec best y then argmax_from i y (S i) t
      else argmax_from best_i best (S i) t
  end.

Definition argmax_row (r : list R) : result nat :=
  match r with
  | [] => Raise InvalidArgumentError   (* reduction axis is empty *)
  | y :: t => Ok (argmax_from 0 y 1 t)
  end.

Fixpoint mapM {A B : Type} (f : A -> result B) (l : list A) : result (list B) :=
  match l with
  | [] => Ok []
  | a :: t =>
      match f a with
      | Raise e => Raise e
      | Ok b => match mapM f t with
                | Raise e => Raise e
                | Ok bs => Ok (b :: bs)
                end
      end
  end.

(** [tf.argmax(x, axis=-1)] *)
Definition argmax (x : tensor2) : result (list nat) := mapM argmax_row x.

Definition reduce_sum (l : list R) : R := fold_right Rplus 0 l.

Definition softmax_row (r : list R) : list R :=
  let e := map exp r in
  map (fun v => v / reduce_sum e) e.

(** [tf.nn.softmax(x)], over the last axis. *)
Definition softmax (x : tensor2) : tensor2 := map softmax_row x.
End TF.

(* ================================================================= *)
(** ** The post-processing closure *)

Record prediction_result : Type := {
  prediction : string;
  probabilities : dict R
}.

Section Postprocess.
(** Captured from [main]: the list loaded from [labels.json]. *)
Variable labels : list string.

Open Scope result_scope.

(** The dictionary comprehension
    [{labels[i]: prob for i, prob in enumerate(...)}]. *)
Fixpoint probabilities_of (items : list (nat * R)) (acc : dict R)
  : result (dict R) :=
  match items with
  | [] => Ok acc
  | (i, prob) :: t =>
      k <- getitem labels i ;;
      probabilities_of t (dict_set k prob acc)
  end.

Definition postprocess (x : TF.tensor2) : result prediction_result :=
  am <- TF.argmax x ;;
  i0 <- getitem am 0 ;;
  pred <- getitem labels i0 ;;
  row0 <- getitem (TF.softmax x) 0 ;;
  probs <- probabilities_of (enumerate row0) [] ;;
  Ok {| prediction := pred; probabilities := probs |}.

(** [postprocess] with the arithmetic of [tf.nn.softmax] as a parameter:
    [softmax_row] stands for what the float32 kernel returns on a row.
    Everything else is as in [postprocess], which is the instance with the
    exact softmax. *)
Definition postprocess_with (softmax_row : list R -> list R)
  (x : TF.tensor2) : result prediction_result :=
  am <- TF.argmax x ;;
  i0 <- getitem am 0 ;;
  pred <- getitem labels i0 ;;
  row0 <- getitem (map softmax_row x) 0 ;;
  probs <- probabilities_of (enumerate row0) [] ;;
  Ok {| prediction := pred; probabilities := probs |}.
End Postprocess.

(* ================================================================= *)
(** ** Pillow images and NumPy arrays used by [preprocess] *)

Module PIL.
(** Image modes with 8-bit samples. *)
Inductive mode : Type :=
| Mode_1 | Mode_L | Mode_P | Mode_LA
| Mode_RGB | Mode_YCbCr | Mode_RGBA | Mode_CMYK.

Definition bands (m : mode) : nat :=
  match m with
  | Mode_1 | Mode_L | Mode_P => 1
  | Mode_LA => 2
  | Mode_RGB | Mode_YCbCr => 3
  | Mode_RGBA | Mode_CMYK => 4
  end.

(** [im_size] is (width, height), as in Pillow; [im_pixel x y b] is the
    sample of band [b] at column [x] and row [y]. *)
Record image : Type := {
  im_mode : mode;
  im_size : Z * Z;
  im_pixel : nat -> nat -> nat -> Byte.byte
}.

(** What Pillow computes on the samples: the colour-space conversion and
    the resampling filter.  Neither is part of this repository. *)
Record codec : Type := {
  convert_pixels : mode -> image -> nat -> nat -> nat -> Byte.byte;
  resample : Z * Z -> image -> nat -> nat -> nat -> Byte.byte
}.

(** [img.convert(m)] *)
Definition convert (c : codec) (m : mode) (img : image) : image :=
  {| im_mode := m;
     im_size := im_size img;
     im_pixel := convert_pixels c m img |}.

Definition same_size (a b : Z * Z) : bool :=
  ((fst a =? fst b) && (snd a =? snd b))%Z.

(** [img.resize(size)]: an image that has the size already is copied;
    otherwise Pillow refuses a size with a side below 1, and resamples. *)
Definition resize (c : codec) (size : Z * Z) (img : image) : result image :=
  if same_size (im_size img) size then Ok img
  else if ((fst size <? 1) || (snd size <? 1))%Z then Raise ValueError
  else Ok {| im_mode := im_mode img;
             im_size := size;
             im_pixel := resample c size img |}.
End PIL.

Module NP.
(** An n-dimensional array: its shape and its elements in row-major
    order. *)
Record ndarray (A : Type) : Type := {
  shape : list Z;
  data : list A
}.

(** [np.array(img)] for an image with 8-bit samples: shape
    (height, width) for a single band, (height, width, bands)
    otherwise. *)
Definition array (img : PIL.image) : ndarray Byte.byte :=
  let w := fst (PIL.im_size img) in
  let h := snd (PIL.im_size img) in
  let nb := PIL.bands (PIL.im_mode img) in
  {| shape := if (nb =? 1)%nat then [h; w] else [h; w; Z.of_nat nb];
     data :=
       flat_map (fun y =>
         flat_map (fun x =>
           map (fun b => PIL.im_pixel img x y b) (seq 0 nb))
           (seq 0 (Z.to_nat w)))
         (seq 0 (Z.to_nat h)) |}.

Definition uint8_value (b : Byte.byte) : Q :=
  inject_Z (Z.of_N (Byte.to_N b)).

(** [a / d] for a uint8 array and a float divisor. *)
Definition true_divide (a : ndarray Byte.byte) (d : Q) : ndarray Q :=
  {| shape := shape a;
     data := map (fun b => (uint8_value b / d)%Q) (data a) |}.

(** [np.expand_dims(a, axis=0)] *)
Definition expand_dims0 {A : Type} (a : ndarray A) : ndarray A :=
  {| shape := 1%Z :: shape a; data := data a |}.

Definition ndim {A : Type} (a : ndarray A) : nat := List.length (shape a).
End NP.

(* ================================================================= *)
(** ** The pre-processing closure *)

Section Preprocess.
Variable pillow : PIL.codec.
(** Captured from [main]. *)
Variable grayscale : bool.
Variable image_size : Z * Z.

Open Scope result_scope.

Definition preprocess (x : PIL.image) : result (NP.ndarray Q) :=
  let x := PIL.convert pillow (if grayscale then PIL.Mode_L else PIL.Mode_RGB) x in
  x <- PIL.resize pillow image_size x ;;
  let x := NP.array x in
  let x := NP.true_divide x 255 in
  let x := NP.expand_dims0 x in
  Ok x.
End Preprocess.

(* ================================================================= *)
(** ** Keras layers and [get_model] *)

Module Keras.
Inductive activation : Type := relu.

(** The layers used by the pipeline, with the arguments [get_model]
    passes; [None] as activation is the identity (raw logits). *)
Inductive layer : Type :=
| Conv2D (filters : Z) (kernel_size : Z * Z)
         (act : option activation) (input_shape : option (Z * Z * Z))
| MaxPooling2D (pool_size : Z * Z)
| Flatten
| Dense (units : Z) (act : option activation).

(** [tf.keras.models.Sequential(layers)] *)
Record sequential : Type := Sequential { layers : list layer }.

(** Shape of the input the model expects: the [input_shape] of its
    first layer. *)
Definition model_input_shape (m : sequential) : option (Z * Z * Z) :=
  match layers m with
  | Conv2D _ _ _ s :: _ => s
  | _ => None
  end.

(** Width of the output layer. *)
Definition model_output_width (m : sequential) : option Z :=
  match last (map Some (layers m)) None with
  | Some (Dense u _) => Some u
  | _ => None
  end.

(** Output shape of one layer on a batch-less input shape, with the
    defaults of Keras: stride 1 and no padding for a convolution, stride
    equal to the pool size and no padding for pooling. *)
Definition layer_output_shape (l : layer) (s : list Z) : option (list Z) :=
  match l, s with
  | Conv2D f (kh, kw) _ _, [h; w; _] =>
      if ((kh <=? h) && (kw <=? w))%Z
      then Some [h - kh + 1; w - kw + 1; f]%Z else None
  | MaxPooling2D (ph, pw), [h; w; c] =>
      if ((0 <? ph) && (0 <? pw) && (ph <=? h) && (pw <=? w))%Z
      then Some [(h - ph) / ph + 1; (w - pw) / pw + 1; c]%Z else None
  | Flatten, _ => Some [fold_right Z.mul 1%Z s]
  | Dense u _, [_] => Some [u]
  | _, _ => None
  end.

Fixpoint output_shape (ls : list layer) (s : list Z) : option (list Z) :=
  match ls with
  | [] => Some s
  | l :: t =>
      match layer_output_shape l s with
      | Some s' => output_shape t s'
      | None => None
      end
  end.

(** The constructor [tf.keras.models.Sequential(layers)].  When the first
    layer declares its [input_shape] the model is built at once: every
    layer is applied to the output shape of the one before it, and a shape
    that does not fit raises [ValueError] ("Negative dimension size ...").
    Without a declared input shape the layers are built on first use.
    The sizes are those of a Configuration Record, positive integers; what
    the layer constructors make of others is left out. *)
Definition build (ls : list layer) : result sequential :=
  match ls with
  | Conv2D _ _ _ (Some (h, w, c)) :: _ =>
      match output_shape ls [h; w; c] with
      | Some _ => Ok (Sequential ls)
      | None => Raise ValueError
      end
  | _ => Ok (Sequential ls)
  end.
End Keras.

(** The list of layers [get_model] passes to [Sequential]. *)
Definition get_model_layers (image_shape : Z * Z * Z)
  (conv_size dense_size output_classes : Z) : list Keras.layer :=
  [ Keras.Conv2D conv_size (3, 3)%Z (Some Keras.relu) (Some image_shape);
    Keras.MaxPooling2D (3, 3)%Z;
    Keras.Flatten;
    Keras.Dense dense_size (Some Keras.relu);
    Keras.Dense output_classes None ].

(** [get_model]: the call of the constructor, which raises when the shapes
    do not fit through the layers.  The variables Keras creates for the
    built layers are drawn in [instantiate] below. *)
Definition get_model (image_shape : Z * Z * Z)
  (conv_size dense_size output_classes : Z) : result Keras.sequential :=
  (model <- Keras.build
              (get_model_layers image_shape conv_size dense_size output_classes) ;;
   Ok model)%result.

(** The shape [main] gives to [get_model]: the two entries of
    [image_size] followed by the number of channels, 1 if [grayscale]
    else 3. *)
Definition image_shape (image_size : Z * Z) (grayscale : bool) : Z * Z * Z :=
  (fst image_size, snd image_size, if grayscale then 1 else 3)%Z.

(* ================================================================= *)
(** ** The process [main] runs in *)

(** How a run ends: [main] returns, [exit(status)] is called, or an
    exception reaches the top level. *)
Inductive outcome (A : Type) : Type :=
| Done (a : A)
| Exit (status : Z)
| Uncaught (e : exn).

Arguments Done {A} a.
Arguments Exit {A} status.
Arguments Uncaught {A} e.

(** Exit status of the interpreter. *)
Definition exit_status {A : Type} (o : outcome A) : Z :=
  match o with
  | Done _ => 0
  | Exit status => status
  | Uncaught _ => 1
  end.

(** A loss or accuracy value: a float, possibly not finite. *)
Inductive metric : Type :=
| Finite (q : Q)
| PosInf
| NegInf
| NaN.

(** [params.yaml], with its two sections.  A section that is present
    holds all the keys [main] reads from it. *)
Record prepare_params : Type := {
  pp_image_size : Z * Z;
  pp_grayscale : bool
}.

Record train_params : Type := {
  tp_seed : Z;
  tp_lr : Q;
  tp_epochs : Z;
  tp_conv_size : Z;
  tp_dense_size : Z;
  tp_output_classes : Z
}.

Record params_file : Type := {
  section_prepare : option prepare_params;
  section_train : option train_params
}.

(** An example is an image tensor with its class index; a dataset yields
    batches of examples. *)
Definition example : Type := list Q * Z.
Definition batch : Type := list example.
Definition dataset : Type := list example.

(** State of the process-wide pseudo-random generators. *)
Record rng_state : Type := {
  rng_seed : Z;
  rng_draws : nat
}.

(** Trainable and optimizer variables of a model. *)
Definition variables : Type := list Q.

Inductive optimizer : Type := Adam (lr : Q).
Inductive loss_fn : Type := SparseCategoricalCrossentropy (from_logits : bool).
Inductive metric_fn : Type := SparseCategoricalAccuracy.

Record compile_config : Type := {
  cc_optimizer : optimizer;
  cc_loss : loss_fn;
  cc_metrics : list metric_fn
}.

(** The values Keras logs at the end of an epoch. *)
Record epoch_logs : Type := {
  loss : metric;
  sparse_categorical_accuracy : metric;
  val_loss : metric;
  val_sparse_categorical_accuracy : metric
}.

(** A [tf.keras.Model] object; [m_history] is [model.history.history]. *)
Record model : Type := {
  m_arch : Keras.sequential;
  m_variables : variables;
  m_compiled : option compile_config;
  m_history : dict (list metric)
}.

(** The inference closures, as the function with the values of its free
    variables. *)
Inductive closure : Type :=
| preprocess_closure (grayscale : bool) (image_size : Z * Z)
| postprocess_closure (labels : list string).

(** An entry of the BentoML model store. *)
Record bento : Type := {
  b_model : model;
  b_include_optimizer : bool;
  b_custom_objects : list (string * closure)
}.

Inductive tag_version : Type :=
| Latest
| Version (n : nat).

Inductive file_content : Type :=
| BentoModelFile (b : bento)
| NpyFile (h : dict (list metric)).

(** What a run does, in order.  [Initialized] and [Presented] record the
    values the numeric engine works on; the others are visible outside
    the process. *)
Inductive event : Type :=
| Print (s : string)
| OpenRead (path : string)
| DatasetLoad (path : string)
| Initialized (v : variables)
| Summary (arch : Keras.sequential)
| EpochBegin (epoch total : nat)
| Presented (bs : list batch)
| EpochEnd (epoch : nat) (logs : epoch_logs)
| Mkdir (path : string) (parents exist_ok : bool)
| StoreSave (name : string) (b : bento)
| WriteFile (path : string) (content : file_content).

Definition touches_filesystem (e : event) : bool :=
  match e with
  | OpenRead _ | DatasetLoad _ | Mkdir _ _ _ | StoreSave _ _ | WriteFile _ _ => true
  | _ => false
  end.

Record world : Type := {
  trace : list event;                  (* oldest first *)
  rng : rng_state;
  bento_store : list (string * bento); (* oldest first; the version of an
                                          entry is its position *)
  files : list (string * file_content) (* files written, newest first *)
}.

(** The collaborators of the pipeline that are given to a run: the
    parameter file, the prepared dataset folder, the file system's
    answers and [pathlib]. *)
Record environment : Type := {
  yaml_params : result params_file;             (* yaml.safe_load(open("params.yaml")) *)
  dataset_at : string -> result dataset;        (* tf.data.Dataset.load(path) *)
  labels_at : string -> result (list string);   (* json.load(open(path)) *)
  mkdir_at : string -> result unit;
  store_writable : result unit;
  write_at : string -> result unit;
  path_str : string -> string;                  (* str(Path(s)) *)
  path_join : string -> string -> string;       (* str(Path(p) / name) *)
  path_absolute : string -> string              (* str(Path(p).absolute()) *)
}.

(** The numeric engine behind Keras: initializers, dataset iteration, one
    training pass and one validation pass. *)
Record engine : Type := {
  initialize : Keras.sequential -> rng_state -> result (variables * rng_state);
  iterate : dataset -> rng_state -> result (list batch * rng_state);
  train_pass : Keras.sequential -> compile_config -> variables -> list batch ->
               result (variables * (metric * metric));
  test_pass : Keras.sequential -> compile_config -> variables -> list batch ->
              result (metric * metric)
}.

Definition M (A : Type) : Type := world -> outcome A * world.

Definition ret {A : Type} (a : A) : M A := fun w => (Done a, w).

Definition bind {A B : Type} (m : M A) (k : A -> M B) : M B :=
  fun w =>
    match m w with
    | (Done a, w') => k a w'
    | (Exit s, w') => (Exit s, w')
    | (Uncaught e, w') => (Uncaught e, w')
    end.

Declare Scope proc_scope.
Delimit Scope proc_scope with proc.
Notation "x <- m ;; k" := (bind m (fun x => k))
  (at level 61, m at next level, right associativity) : proc_scope.
Notation "m ;; k" := (bind m (fun _ => k))
  (at level 61, right associativity) : proc_scope.

Definition raise {A : Type} (e : exn) : M A := fun w => (Uncaught e, w).

Definition lift {A : Type} (r : result A) : M A :=
  match r with
  | Ok a => ret a
  | Raise e => raise e
  end.

(** [exit(status)] *)
Definition exit {A : Type} (status : Z) : M A := fun w => (Exit status, w).

Definition emit (e : event) : M unit :=
  fun w => (Done tt, {| trace := trace w ++ [e]; rng := rng w;
                        bento_store := bento_store w; files := files w |}).

Definition print (s : string) : M unit := emit (Print s).

Definition get_rng : M rng_state := fun w => (Done (rng w), w).

Definition put_rng (r : rng_state) : M unit :=
  fun w => (Done tt, {| trace := trace w; rng := r;
                        bento_store := bento_store w; files := files w |}).

Definition nl : string := String "010"%char EmptyString.
Definition tab : string := String "009"%char EmptyString.

(* ================================================================= *)
(** ** Library calls made by [main] *)

Section Pipeline.
Variable env : environment.
Variable eng : engine.

Open Scope proc_scope.

(** [yaml.safe_load(open("params.yaml"))[key]], where [sel] picks the
    section named [key]. *)
Definition yaml_section {A : Type} (sel : params_file -> option A)
  (key : string) : M A :=
  emit (OpenRead "params.yaml") ;;
  doc <- lift (yaml_params env) ;;
  match sel doc with
  | Some s => ret s
  | None => raise (KeyError key)
  end.

(** Modelled from the spec: [utils/seed.py] is not among the sources.
    The spec describes [set_seed] as "a single idempotent call
    establishing determinism for the pseudo-random number sources used by
    the model initializer and by the training loop": the call puts the
    process-wide generators in the state that the seed alone
    determines. *)
Definition set_seed (seed : Z) : M unit :=
  put_rng {| rng_seed := seed; rng_draws := 0 |}.

(** [tf.data.Dataset.load(path)] *)
Definition dataset_load (path : string) : M dataset :=
  emit (DatasetLoad path) ;;
  lift (dataset_at env path).

(** [with open(path) as f: json.load(f)] *)
Definition json_load (path : string) : M (list string) :=
  emit (OpenRead path) ;;
  lift (labels_at env path).

(** Keras creates the variables of the layers when the [Sequential] is
    constructed, since the first layer carries its [input_shape]; the
    initializers draw from the process-wide generators. *)
Definition instantiate (arch : Keras.sequential) : M model :=
  r <- get_rng ;;
  vr <- lift (initialize eng arch r) ;;
  put_rng (snd vr) ;;
  emit (Initialized (fst vr)) ;;
  ret {| m_arch := arch; m_variables := fst vr;
         m_compiled := None; m_history := [] |}.

(** [model.compile(optimizer=..., loss=..., metrics=...)] *)
Definition compile (m : model) (c : compile_config) : model :=
  {| m_arch := m_arch m; m_variables := m_variables m;
     m_compiled := Some c; m_history := m_history m |}.

(** [model.summary()] *)
Definition summary (m : model) : M unit := emit (Summary (m_arch m)).

(** [history.setdefault(k, []).append(v)] *)
Definition history_append (k : string) (v : metric)
  (h : dict (list metric)) : dict (list metric) :=
  match dict_get k h with
  | Some l => dict_set k (l ++ [v]) h
  | None => dict_set k [v] h
  end.

(** What the [History] callback of Keras does at the end of an epoch. *)
Definition record_logs (logs : epoch_logs) (h : dict (list metric))
  : dict (list metric) :=
  history_append "val_sparse_categorical_accuracy"
      (val_sparse_categorical_accuracy logs)
    (history_append "val_loss" (val_loss logs)
      (history_append "sparse_categorical_accuracy"
          (sparse_categorical_accuracy logs)
        (history_append "loss" (loss logs) h))).

(** One epoch of [model.fit]: a pass over the training dataset that
    updates the variables, then a pass over the validation dataset. *)
Definition fit_epoch (c : compile_config) (ds_train ds_val : dataset)
  (epoch total : nat) (m : model) : M model :=
  emit (EpochBegin epoch total) ;;
  r <- get_rng ;;
  br <- lift (iterate eng ds_train r) ;;
  put_rng (snd br) ;;
  emit (Presented (fst br)) ;;
  tr <- lift (train_pass eng (m_arch m) c (m_variables m) (fst br)) ;;
  r' <- get_rng ;;
  vb <- lift (iterate eng ds_val r') ;;
  put_rng (snd vb) ;;
  va <- lift (test_pass eng (m_arch m) c (fst tr) (fst vb)) ;;
  let logs := {| loss := fst (snd tr);
                 sparse_categorical_accuracy := snd (snd tr);
                 val_loss := fst va;
                 val_sparse_categorical_accuracy := snd va |} in
  emit (EpochEnd epoch logs) ;;
  ret {| m_arch := m_arch m; m_variables := fst tr;
         m_compiled := m_compiled m;
         m_history := record_logs logs (m_history m) |}.

(** The epochs [epoch], [epoch + 1], ... of a run of [total] epochs,
    [remaining] of which are still to do. *)
Fixpoint fit_loop (c : compile_config) (ds_train ds_val : dataset)
  (remaining epoch total : nat) (m : model) : M model :=
  match remaining with
  | O => ret m
  | S k =>
      m' <- fit_epoch c ds_train ds_val epoch total m ;;
      fit_loop c ds_train ds_val k (S epoch) total m'
  end.

(** [model.fit(ds_train, epochs=epochs, validation_data=ds_val)]: a fresh
    [History] is attached to the model, then the epochs run; no callback
    stops the loop early. *)
Definition fit (m : model) (ds_train : dataset) (epochs : Z)
  (ds_val : dataset) : M model :=
  match m_compiled m with
  | None => raise (OtherError "model not compiled")
  | Some c =>
      fit_loop c ds_train ds_val (Z.to_nat epochs) 1 (Z.to_nat epochs)
        {| m_arch := m_arch m; m_variables := m_variables m;
           m_compiled := m_compiled m; m_history := [] |}
  end.

(** [path.mkdir(parents=..., exist_ok=...)] *)
Definition mkdir (path : string) (parents exist_ok : bool) : M unit :=
  lift (mkdir_at env path) ;;
  emit (Mkdir path parents exist_ok).

(** [bentoml.keras.save_model(name, model, include_optimizer=...,
    custom_objects=...)]: a new version of [name] is added to the
    store. *)
Definition bentoml_keras_save_model (name : string) (m : model)
  (include_optimizer : bool) (custom_objects : list (string * closure))
  : M unit :=
  lift (store_writable env) ;;
  fun w =>
    let b := {| b_model := m; b_include_optimizer := include_optimizer;
                b_custom_objects := custom_objects |} in
    (Done tt,
     {| trace := trace w ++ [StoreSave name b];
        rng := rng w;
        bento_store := bento_store w ++ [(name, b)];
        files := files w |}).

(** The entry a tag denotes; [Latest] is the newest version of the
    name. *)
Fixpoint store_latest (name : string) (s : list (string * bento))
  : option bento :=
  match s with
  | [] => None
  | (n, b) :: t =>
      match store_latest name t with
      | Some b' => Some b'
      | None => if String.eqb n name then Some b else None
      end
  end.

Definition store_get (name : string) (v : tag_version)
  (s : list (string * bento)) : option bento :=
  match v with
  | Latest => store_latest name s
  | Version n =>
      match nth_error s n with
      | Some (n', b) => if String.eqb n' name then Some b else None
      | None => None
      end
  end.

Definition write_file (path : string) (c : file_content) : M unit :=
  lift (write_at env path) ;;
  fun w =>
    (Done tt,
     {| trace := trace w ++ [WriteFile path c];
        rng := rng w;
        bento_store := bento_store w;
        files := (path, c) :: files w |}).

(** [bentoml.models.export_model("name:version", path)] *)
Definition bentoml_models_export_model (name : string) (v : tag_version)
  (path : string) : M unit :=
  fun w =>
    match store_get name v (bento_store w) with
    | None => (Uncaught (NotFound name), w)
    | Some b => write_file path (BentoModelFile b) w
    end.

(** [np.save(path, history)] *)
Definition np_save (path : string) (h : dict (list metric)) : M unit :=
  write_file path (NpyFile h).

(* =============================================================== *)
(** ** [main] *)

Variable argv : list string.

Definition main : M unit :=
  if negb (List.length argv =? 3)%nat then
    print ("Arguments error. Usage:" ++ nl) ;;
    print (tab ++ "python3 train.py <prepared-dataset-folder> <model-folder>" ++ nl) ;;
    exit 1
  else
    (* Load parameters *)
    prepare_params <- yaml_section section_prepare "prepare" ;;
    train_params <- yaml_section section_train "train" ;;

    arg1 <- lift (getitem argv 1) ;;
    arg2 <- lift (getitem argv 2) ;;
    let prepared_dataset_folder := path_str env arg1 in
    let model_folder := path_str env arg2 in

    let image_size := pp_image_size prepare_params in
    let grayscale := pp_grayscale prepare_params in
    let image_shape := image_shape image_size grayscale in

    let seed := tp_seed train_params in
    let lr := tp_lr train_params in
    let epochs := tp_epochs train_params in
    let conv_size := tp_conv_size train_params in
    let dense_size := tp_dense_size train_params in
    let output_classes := tp_output_classes train_params in

    (* Set seed for reproducibility *)
    set_seed seed ;;

    (* Load data *)
    ds_train <- dataset_load (path_join env prepared_dataset_folder "train") ;;
    ds_test <- dataset_load (path_join env prepared_dataset_folder "test") ;;
    labels <- json_load (path_join env prepared_dataset_folder "labels.json") ;;

    (* Define the model *)
    model <- lift (get_model image_shape conv_size dense_size output_classes) ;;
    model <- instantiate model ;;
    let model :=
      compile model
        {| cc_optimizer := Adam lr;
           cc_loss := SparseCategoricalCrossentropy true;
           cc_metrics := [SparseCategoricalAccuracy] |} in
    summary model ;;

    (* Train the model *)
    model <- fit model ds_train epochs ds_test ;;

    (* Save the model *)
    mkdir model_folder true true ;;
    let preprocess := preprocess_closure grayscale image_size in
    let postprocess := postprocess_closure labels in
    bentoml_keras_save_model "celestial_bodies_classifier_model" model true
      [("preprocess"%string, preprocess); ("postprocess"%string, postprocess)] ;;

    (* Export the model from the model store to the local model folder *)
    bentoml_models_export_model "celestial_bodies_classifier_model" Latest
      (model_folder ++ "/celestial_bodies_classifier_model.bentomodel") ;;

    (* Save the model history *)
    np_save (path_join env model_folder "history.npy") (m_history model) ;;

    print (nl ++ "Model saved at " ++ path_absolute env model_folder).
End Pipeline.

(* ================================================================= *)
(** ** Vocabulary of the specification *)

(** A one-hot vector of length [n] with its one at index [k], scaled by
    [c]. *)
Definition one_hot (n k : nat) (c : R) : list R :=
  map (fun i => if (i =? k)%nat then c else 0%R) (seq 0 n).

(** The dictionary obtained by assigning the pairs of [kvs] in order. *)
Definition dict_assign {V : Type} (kvs : list (string * V)) (acc : dict V)
  : dict V :=
  fold_left (fun d kv => dict_set (fst kv) (snd kv) d) kvs acc.

(** The image [preprocess] hands to NumPy: converted, then resized. *)
Definition prepared_image (pillow : PIL.codec) (grayscale : bool)
  (image_size : Z * Z) (x : PIL.image) : PIL.image :=
  let c :=
    PIL.convert pillow (if grayscale then PIL.Mode_L else PIL.Mode_RGB) x in
  if PIL.same_size (PIL.im_size c) image_size then c
  else {| PIL.im_mode := PIL.im_mode c;
          PIL.im_size := image_size;
          PIL.im_pixel := PIL.resample pillow image_size c |}.

(** One record of the Training History of the specification. *)
Record epoch_record : Type := {
  er_epoch : nat;
  er_train_loss : metric;
  er_train_accuracy : metric;
  er_val_loss : metric;
  er_val_accuracy : metric
}.

Definition record_of (e : nat) (logs : epoch_logs) : epoch_record :=
  {| er_epoch := e;
     er_train_loss := loss logs;
     er_train_accuracy := sparse_categorical_accuracy logs;
     er_val_loss := val_loss logs;
     er_val_accuracy := val_sparse_categorical_accuracy logs |}.

(** The list stored under a key of [model.history.history]. *)
Definition history_column (k : string) (h : dict (list metric)) : list metric :=
  match dict_get k h with
  | Some l => l
  | None => []
  end.

Fixpoint zip_records (e : nat) (l a vl va : list metric) : list epoch_record :=
  match l, a, vl, va with
  | x :: l', y :: a', z :: vl', t :: va' =>
      {| er_epoch := e; er_train_loss := x; er_train_accuracy := y;
         er_val_loss := z; er_val_accuracy := t |}
      :: zip_records (S e) l' a' vl' va'
  | _, _, _, _ => []
  end.

(** The persisted dictionary of lists read as the sequence of per-epoch
    records: the entries at position [i] of the four lists make the record
    of epoch [i + 1]. *)
Definition history_records (h : dict (list metric)) : list epoch_record :=
  zip_records 1
    (history_column "loss" h)
    (history_column "sparse_categorical_accuracy" h)
    (history_column "val_loss" h)
    (history_column "val_sparse_categorical_accuracy" h).

(** The dictionary of lists made from the logs of successive epochs. *)
Definition history_of (logs : list epoch_logs) : dict (list metric) :=
  match logs with
  | [] => []
  | _ :: _ =>
      [ ("loss"%string, map loss logs);
        ("sparse_categorical_accuracy"%string,
         map sparse_categorical_accuracy logs);
        ("val_loss"%string, map val_loss logs);
        ("val_sparse_categorical_accuracy"%string,
         map val_sparse_categorical_accuracy logs) ]
  end.

(** The values the engine logged, epoch by epoch, among some events. *)
Fixpoint epoch_ends (evs : list event) : list (nat * epoch_logs) :=
  match evs with
  | [] => []
  | EpochEnd e logs :: t => (e, logs) :: epoch_ends t
  | _ :: t => epoch_ends t
  end.

(** The usage text and the events of packaging. *)
Definition usage_events : list event :=
  [ Print ("Arguments error. Usage:" ++ nl);
    Print (tab ++ "python3 train.py <prepared-dataset-folder> <model-folder>" ++ nl) ].

(** [adds evs w w']: from [w] to [w'] the events [evs] happened, no model
    was registered and no file written. *)
Definition adds (evs : list event) (w w' : world) : Prop :=
  trace w' = trace w ++ evs /\
  bento_store w' = bento_store w /\
  files w' = files w.

(** A computation that never calls [exit]. *)
Definition never_exits {A : Type} (m : M A) : Prop :=
  forall w s w', m w <> (Exit s, w').

(** Two worlds whose traces extend [t1] and [t2] by the same events. *)
Definition same_events (t1 t2 : list event) (w1 w2 : world) : Prop :=
  exists evs, trace w1 = t1 ++ evs /\ trace w2 = t2 ++ evs.

(** The logical name under which the packager registers the model. *)
Definition model_name : string := "celestial_bodies_classifier_model".

(** How much two runs, started in worlds with the traces [t1] and [t2],
    are known to agree on: on the events so far; also on the state of the
    generators; also on the newest registered version of the model. *)
Inductive level : Type := Events | Seeded | Registered.

Definition holds (t1 t2 : list event) (l : level) (w1 w2 : world) : Prop :=
  same_events t1 t2 w1 w2 /\
  match l with
  | Events => True
  | Seeded => rng w1 = rng w2
  | Registered =>
      rng w1 = rng w2 /\
      store_latest model_name (bento_store w1) =
      store_latest model_name (bento_store w2)
  end.

(** Two results agree: same way of ending and same value, in worlds that
    agree at level [l] after a normal return and on the events otherwise. *)
Definition agree (t1 t2 : list event) (l : level) {A : Type}
  (r1 r2 : outcome A * world) : Prop :=
  match fst r1, fst r2 with
  | Done a1, Done a2 => a1 = a2 /\ holds t1 t2 l (snd r1) (snd r2)
  | Exit s1, Exit s2 => s1 = s2 /\ holds t1 t2 Events (snd r1) (snd r2)
  | Uncaught e1, Uncaught e2 => e1 = e2 /\ holds t1 t2 Events (snd r1) (snd r2)
  | _, _ => False
  end.

(** [m] takes worlds that agree at level [l] to results that agree at
    level [l']. *)
Definition respects (t1 t2 : list event) (l l' : level) {A : Type}
  (m : M A) : Prop :=
  forall w1 w2, holds t1 t2 l w1 w2 -> agree t1 t2 l' (m w1) (m w2).

(** The bundle [main] registers for a trained model. *)
Definition packaged (m : model) (grayscale : bool) (image_size : Z * Z)
  (labels : list string) : bento :=
  {| b_model := m;
     b_include_optimizer := true;
     b_custom_objects :=
       [ ("preprocess"%string, preprocess_closure grayscale image_size);
         ("postprocess"%string, postprocess_closure labels) ] |}.

(** The shape of a batch of one input of a model built for [s]. *)
Definition as_batch_of_one (s : Z * Z * Z) : list Z :=
  [1; fst (fst s); snd (fst s); snd s]%Z.

(** The world [w] after the events [evs], nothing else changed. *)
Definition after (w : world) (evs : list event) : world :=
  {| trace := trace w ++ evs; rng := rng w;
     bento_store := bento_store w; files := files w |}.

(** A computation that, however it ends, registers no model and writes no
    file. *)
Definition quiet {A : Type} (m : M A) : Prop :=
  forall w o w', m w = (o, w') ->
    bento_store w' = bento_store w /\ files w' = files w.

(** What a run may leave behind: nothing; or the registered model alone;
    or the registered model and its export; or, and only when the run
    returns, both output files. *)
Definition settled (w : world) (r : outcome unit * world) : Prop :=
  let o := fst r in
  let w' := snd r in
  (o <> Done tt /\ bento_store w' = bento_store w /\ files w' = files w) \/
  (exists b,
      bento_store w' = bento_store w ++ [(model_name, b)] /\
      ((o <> Done tt /\ files w' = files w) \/
       (exists p, o <> Done tt /\ files w' = (p, BentoModelFile b) :: files w) \/
       (exists p hp,
           o = Done tt /\
           files w' =
             (hp, NpyFile (m_history (b_model b)))
             :: (p, BentoModelFile b) :: files w))).

Definition settles (m : M unit) : Prop := forall w, settled w (m w).

(** ** A small instance to run the pipeline on *)

Module Sample.
(** First band for the conversion, nearest neighbour for resampling. *)
Definition codec : PIL.codec :=
  {| PIL.convert_pixels := fun _ img x y _ => PIL.im_pixel img x y 0;
     PIL.resample := fun size img x y b =>
       PIL.im_pixel img
         (x * Z.to_nat (fst (PIL.im_size img)) / Z.to_nat (fst size))
         (y * Z.to_nat (snd (PIL.im_size img)) / Z.to_nat (snd size)) b |}.

(** A 2x1 grey image with the samples 0 and 255. *)
Definition image : PIL.image :=
  {| PIL.im_mode := PIL.Mode_L;
     PIL.im_size := (2, 1)%Z;
     PIL.im_pixel := fun x _ _ =>
       match x with O => Byte.x00 | _ => Byte.xff end |}.

Definition params : params_file :=
  {| section_prepare :=
       Some {| pp_image_size := (32, 32)%Z; pp_grayscale := false |};
     section_train :=
       Some {| tp_seed := 77; tp_lr := 1 # 1000; tp_epochs := 2;
               tp_conv_size := 32; tp_dense_size := 64;
               tp_output_classes := 2 |} |}.

Definition env : environment :=
  {| yaml_params := Ok params;
     dataset_at := fun _ => Ok [([1 # 2], 0%Z); ([1 # 4], 1%Z)];
     labels_at := fun _ => Ok ["star"; "planet"]%string;
     mkdir_at := fun _ => Ok tt;
     store_writable := Ok tt;
     write_at := fun _ => Ok tt;
     path_str := fun s => s;
     path_join := fun p name => (p ++ "/" ++ name)%string;
     path_absolute := fun p => ("/work/" ++ p)%string |}.

(** The instance on a file system that refuses every write. *)
Definition env_read_only : environment :=
  {| yaml_params := yaml_params env;
     dataset_at := dataset_at env;
     labels_at := labels_at env;
     mkdir_at := mkdir_at env;
     store_writable := store_writable env;
     write_at := fun _ => Raise (OtherError "read-only file system");
     path_str := path_str env;
     path_join := path_join env;
     path_absolute := path_absolute env |}.

Definition draw (r : rng_state) : rng_state :=
  {| rng_seed := rng_seed r; rng_draws := S (rng_draws r) |}.

(** An engine whose numbers depend on the generator state; its
    validation loss is not finite. *)
Definition eng : engine :=
  {| initialize := fun _ r => Ok ([inject_Z (rng_seed r)], draw r);
     iterate := fun ds r =>
       Ok ((if Nat.even (rng_draws r) then [ds] else [rev ds]), draw r);
     train_pass := fun _ _ v bs =>
       Ok (map (Qplus 1) v, (Finite (1 # 2), Finite (3 # 4)));
     test_pass := fun _ _ v bs => Ok (NaN, Finite 0) |}.

Definition argv : list string := ["train.py"; "data"; "out"]%string.

(** The instance with another answer for the parameter file. *)
Definition env_with_params (r : result params_file) : environment :=
  {| yaml_params := r;
     dataset_at := dataset_at env;
     labels_at := labels_at env;
     mkdir_at := mkdir_at env;
     store_writable := store_writable env;
     write_at := write_at env;
     path_str := path_str env;
     path_join := path_join env;
     path_absolute := path_absolute env |}.

Definition world0 : world :=
  {| trace := []; rng := {| rng_seed := 0; rng_draws := 5 |};
     bento_store := []; files := [] |}.
End Sample.

(* ================================================================= *)
(** * Properties *)

(** ** The definitions at work on the sample instance *)

Example preprocess_sample_grey :
  preprocess Sample.codec true (4, 2)%Z Sample.image =
  Ok {| NP.shape := [1; 2; 4]%Z;
        NP.data := [0 # 255; 0 # 255; 255 # 255; 255 # 255;
                    0 # 255; 0 # 255; 255 # 255; 255 # 255]%Q |}.
Proof. reflexivity. Qed.

Example preprocess_sample_colour_shape :
  match preprocess Sample.codec false (4, 2)%Z Sample.image with
  | Ok a => NP.shape a = [1; 2; 4; 3]%Z /\ List.length (NP.data a) = 24%nat
  | Raise _ => False
  end.
Proof. split; reflexivity. Qed.

Example preprocess_sample_empty_size :
  preprocess Sample.codec true (0, 2)%Z Sample.image = Raise ValueError.
Proof. reflexivity. Qed.

Example main_sample_returns :
  fst (main Sample.env Sample.eng Sample.argv Sample.world0) = Done tt.
Proof. vm_compute. reflexivity. Qed.

Example main_sample_epochs :
  epoch_ends (trace (snd (main Sample.env Sample.eng Sample.argv Sample.world0))) =
  [ (1%nat, {| loss := Finite (1 # 2);
               sparse_categorical_accuracy := Finite (3 # 4);
               val_loss := NaN;
               val_sparse_categorical_accuracy := Finite 0 |});
    (2%nat, {| loss := Finite (1 # 2);
               sparse_categorical_accuracy := Finite (3 # 4);
               val_loss := NaN;
               val_sparse_categorical_accuracy := Finite 0 |}) ].
Proof. vm_compute. reflexivity. Qed.

Example main_sample_no_arguments :
  main Sample.env Sample.eng ["train.py"]%string Sample.world0 =
  (Exit 1, {| trace := usage_events; rng := rng Sample.world0;
              bento_store := []; files := [] |}).
Proof. reflexivity. Qed.

Example get_model_sample_shapes :
  Keras.output_shape (get_model_layers (32, 32, 3)%Z 16 64 11)
    [32; 32; 3]%Z = Some [11%Z] /\
  Keras.output_shape (get_model_layers (4, 32, 3)%Z 16 64 11)
    [4; 32; 3]%Z = None.
Proof. split; reflexivity. Qed.

Example get_model_sample :
  get_model (32, 32, 3)%Z 16 64 11 =
    Ok (Keras.Sequential (get_model_layers (32, 32, 3)%Z 16 64 11)) /\
  get_model (4, 32, 3)%Z 16 64 11 = Raise ValueError.
Proof. split; reflexivity. Qed.

(** ** Lists and dictionaries *)

Lemma nth_error_skipn_cons (A : Type) (l : list A) (s : nat) :
  (s < List.length l)%nat ->
  exists a, nth_error l s = Some a /\ skipn s l = a :: skipn (S s) l.
Proof.
  revert s. induction l as [|x l IH]; intros s Hs; simpl in Hs.
  - lia.
  - destruct s as [|s].
    + exists x. split; reflexivity.
    + destruct (IH s) as [a [H1 H2]]; [lia|].
      exists a. split; [exact H1|]. simpl. exact H2.
Qed.

Lemma keys_dict_set (V : Type) (k : string) (v : V) (d : dict V) :
  forall l, In l (keys (dict_set k v d)) <-> l = k \/ In l (keys d).
Proof.
  induction d as [|[k' v'] d IH]; intros l; simpl.
  - intuition.
  - destruct (String.eqb k' k) eqn:E; simpl.
    + apply String.eqb_eq in E. subst k'. intuition.
    + unfold keys in IH. rewrite IH. intuition.
Qed.

Lemma dict_set_fresh (V : Type) (k : string) (v : V) (d : dict V) :
  ~ In k (keys d) -> dict_set k v d = d ++ [(k, v)].
Proof.
  induction d as [|[k' v'] d IH]; intros Hk; simpl.
  - reflexivity.
  - destruct (String.eqb k' k) eqn:E.
    + apply String.eqb_eq in E. subst k'. exfalso. apply Hk. left. reflexivity.
    + rewrite IH; [reflexivity|]. intro Hin. apply Hk. right. exact Hin.
Qed.

Lemma keys_dict_assign (V : Type) (kvs : list (string * V)) :
  forall acc l,
    In l (keys (dict_assign kvs acc)) <-> In l (keys acc) \/ In l (map fst kvs).
Proof.
  induction kvs as [|[k v] kvs IH]; intros acc l; simpl.
  - intuition.
  - unfold dict_assign in *. simpl. rewrite IH, keys_dict_set. intuition.
Qed.

Lemma dict_assign_fresh (V : Type) (kvs : list (string * V)) :
  forall acc,
    NoDup (keys acc ++ map fst kvs) -> dict_assign kvs acc = acc ++ kvs.
Proof.
  induction kvs as [|[k v] kvs IH]; intros acc Hnd; simpl.
  - now rewrite app_nil_r.
  - unfold dict_assign in *. simpl.
    assert (Hk : ~ In k (keys acc)).
    { apply NoDup_remove_2 in Hnd. intro Hin. apply Hnd.
      apply in_or_app. left. exact Hin. }
    rewrite dict_set_fresh by exact Hk.
    rewrite IH.
    + rewrite <- app_assoc. reflexivity.
    + unfold keys in *. rewrite map_app. simpl. rewrite <- app_assoc. exact Hnd.
Qed.

(** ** [tf.argmax] returns the index of the first maximum *)

Lemma argmax_from_correct (l : list R) :
  forall bi b i,
    (TF.argmax_from bi b i l = bi /\ Forall (fun y => (y <= b)%R) l) \/
    (exists p,
        TF.argmax_from bi b i l = (i + p)%nat /\
        (p < List.length l)%nat /\
        (b < nth p l 0)%R /\
        (forall q, (q < p)%nat -> (nth q l 0 < nth p l 0)%R) /\
        (forall q, (nth q l 0 <= nth p l 0)%R \/ (List.length l <= q)%nat)).
Proof.
  induction l as [|y t IH]; intros bi b i; simpl.
  - left. split; [reflexivity|constructor].
  - destruct (Rlt_dec b y) as [Hlt|Hge].
    + right. destruct (IH i y (S i)) as [[Hj Hall]|[p [Hj [Hp [Hb [He Ha]]]]]].
      * exists 0%nat. rewrite Hj, Nat.add_0_r.
        split; [reflexivity|]. split; [lia|]. split; [exact Hlt|].
        split; [intros q Hq; lia|].
        intros [|q]; simpl; [left; lra|].
        destruct (Nat.lt_ge_cases q (List.length t)) as [Hq|Hq]; [|right; lia].
        left. rewrite Forall_forall in Hall. apply Hall. now apply nth_In.
      * exists (S p). rewrite Hj.
        split; [lia|]. split; [lia|]. split; [lra|].
        split.
        -- intros [|q] Hq; simpl; [exact Hb|]. apply He. lia.
        -- intros [|q]; simpl; [left; lra|].
           destruct (Ha q) as [Hq|Hq]; [left; exact Hq|right; lia].
    + destruct (IH bi b (S i)) as [[Hj Hall]|[p [Hj [Hp [Hb [He Ha]]]]]].
      * left. split; [exact Hj|]. constructor; [lra|exact Hall].
      * right. exists (S p). rewrite Hj.
        split; [lia|]. split; [lia|]. split; [exact Hb|].
        split.
        -- intros [|q] Hq; simpl; [lra|]. apply He. lia.
        -- intros [|q]; simpl; [left; lra|].
           destruct (Ha q) as [Hq|Hq]; [left; exact Hq|right; lia].
Qed.

(** For a non-empty row, [argmax_row] returns an index of the row whose
    entry is a maximum and is strictly above every earlier entry. *)
Lemma argmax_row_correct (y : R) (t : list R) :
  exists i,
    TF.argmax_row (y :: t) = Ok i /\
    (i < List.length (y :: t))%nat /\
    (forall q, (q < List.length (y :: t))%nat ->
               (nth q (y :: t) 0 <= nth i (y :: t) 0)%R) /\
    (forall q, (q < i)%nat -> (nth q (y :: t) 0 < nth i (y :: t) 0)%R).
Proof.
  unfold TF.argmax_row.
  destruct (argmax_from_correct t 0 y 1) as [[Hj Hall]|[p [Hj [Hp [Hb [He Ha]]]]]].
  - exists 0%nat. rewrite Hj. split; [reflexivity|]. split; [simpl; lia|].
    split; [|intros q Hq; lia].
    intros [|q] Hq; simpl in *; [lra|].
    rewrite Forall_forall in Hall. apply Hall. apply nth_In. lia.
  - exists (S p). rewrite Hj. split; [reflexivity|]. split; [simpl; lia|].
    split.
    + intros [|q] Hq; simpl in *; [lra|].
      destruct (Ha q) as [H|H]; [exact H|lia].
    + intros [|q] Hq; simpl; [exact Hb|]. apply He. lia.
Qed.

(** ** [tf.nn.softmax] *)

Lemma softmax_row_length (r : list R) :
  List.length (TF.softmax_row r) = List.length r.
Proof. unfold TF.softmax_row. now rewrite !length_map. Qed.

Lemma reduce_sum_exp_pos (r : list R) :
  r <> [] -> (0 < TF.reduce_sum (map exp r))%R.
Proof.
  destruct r as [|y t]; [congruence|]. intros _.
  assert (H : forall l, (0 <= TF.reduce_sum (map exp l))%R).
  { induction l as [|a l IH]; simpl; [lra|].
    pose proof (exp_pos a). lra. }
  simpl. pose proof (exp_pos y). specialize (H t). lra.
Qed.

Lemma reduce_sum_scaled (s : R) (l : list R) :
  TF.reduce_sum (map (fun v => (v / s)%R) l) = (TF.reduce_sum l / s)%R.
Proof.
  induction l as [|a l IH]; simpl.
  - unfold Rdiv. now rewrite Rmult_0_l.
  - rewrite IH. unfold Rdiv. now rewrite Rmult_plus_distr_r.
Qed.

(** The softmax of a non-empty row sums to one. *)
Lemma reduce_sum_softmax_row (r : list R) :
  r <> [] -> TF.reduce_sum (TF.softmax_row r) = 1%R.
Proof.
  intros Hr. unfold TF.softmax_row. rewrite reduce_sum_scaled.
  pose proof (reduce_sum_exp_pos Hr). apply Rdiv_diag. lra.
Qed.

(** ** The dictionary comprehension of [postprocess] *)

Section PostprocessFacts.
Variable labels : list string.

Lemma probabilities_of_ok (ps : list R) :
  forall s acc,
    (s + List.length ps <= List.length labels)%nat ->
    probabilities_of labels (combine (seq s (List.length ps)) ps) acc =
    Ok (dict_assign (combine (firstn (List.length ps) (skipn s labels)) ps) acc).
Proof.
  induction ps as [|p ps IH]; intros s acc Hlen; simpl.
  - reflexivity.
  - simpl in Hlen.
    destruct (@nth_error_skipn_cons _ labels s) as [a [Hn Hs]]; [lia|].
    unfold getitem. rewrite Hn, Hs. simpl.
    rewrite IH by lia. reflexivity.
Qed.

Lemma probabilities_of_overflow (ps : list R) :
  forall s acc,
    (s <= List.length labels)%nat ->
    (List.length labels < s + List.length ps)%nat ->
    probabilities_of labels (combine (seq s (List.length ps)) ps) acc =
    Raise IndexError.
Proof.
  induction ps as [|p ps IH]; intros s acc Hs Hlen; simpl in *.
  - lia.
  - unfold getitem. destruct (nth_error labels s) as [a|] eqn:Hn; simpl.
    + assert (s < List.length labels)%nat
        by (apply nth_error_Some; congruence).
      apply IH; lia.
    + reflexivity.
Qed.

(** [postprocess] on a batch holding one non-empty row. *)
Lemma postprocess_row (y : R) (t : list R) :
  postprocess labels [y :: t] =
  match nth_error labels (TF.argmax_from 0 y 1 t) with
  | None => Raise IndexError
  | Some pred =>
      match probabilities_of labels (enumerate (TF.softmax_row (y :: t))) [] with
      | Ok probs => Ok {| prediction := pred; probabilities := probs |}
      | Raise e => Raise e
      end
  end.
Proof.
  unfold postprocess, TF.argmax, TF.softmax, getitem. simpl.
  destruct (nth_error labels (TF.argmax_from 0 y 1 t)); reflexivity.
Qed.

Lemma postprocess_empty_row : postprocess labels [[]] = Raise InvalidArgumentError.
Proof. reflexivity. Qed.

(** A non-empty row no longer than the label list is accepted. *)
Lemma postprocess_accepts (row : list R) :
  row <> [] ->
  (List.length row <= List.length labels)%nat ->
  exists i pred,
    TF.argmax_row row = Ok i /\
    nth_error labels i = Some pred /\
    postprocess labels [row] =
    Ok {| prediction := pred;
          probabilities :=
            dict_assign
              (combine (firstn (List.length row) labels) (TF.softmax_row row)) [] |}.
Proof.
  intros Hne Hlen. destruct row as [|y t]; [congruence|].
  destruct (argmax_row_correct y t) as [i [Hi [Hlt _]]].
  destruct (nth_error labels i) as [pred|] eqn:Hn.
  2:{ apply nth_error_None in Hn. lia. }
  exists i, pred. split; [exact Hi|]. split; [exact Hn|].
  rewrite postprocess_row.
  unfold TF.argmax_row in Hi. injection Hi as Hi. rewrite Hi, Hn.
  unfold enumerate. rewrite probabilities_of_ok.
  - rewrite softmax_row_length. reflexivity.
  - rewrite softmax_row_length. simpl. exact Hlen.
Qed.

(** A row longer than the label list runs into the end of the list. *)
Lemma postprocess_overflow (row : list R) :
  (List.length labels < List.length row)%nat ->
  postprocess labels [row] = Raise IndexError.
Proof.
  intros Hlen. destruct row as [|y t]; [simpl in Hlen; lia|].
  rewrite postprocess_row.
  destruct (nth_error labels (TF.argmax_from 0 y 1 t)); [|reflexivity].
  unfold enumerate. rewrite probabilities_of_overflow; [reflexivity|lia|].
  rewrite softmax_row_length. simpl. exact Hlen.
Qed.
(** [postprocess] is [postprocess_with] at the exact softmax. *)
Lemma postprocess_with_exact (x : TF.tensor2) :
  postprocess_with labels TF.softmax_row x = postprocess labels x.
Proof. reflexivity. Qed.

(** [postprocess_with] accepts a non-empty row when the kernel returns no
    more probabilities than there are labels. *)
Lemma postprocess_with_accepts (sm : list R -> list R) (row : list R) :
  row <> [] ->
  List.length (sm row) = List.length row ->
  (List.length row <= List.length labels)%nat ->
  exists i pred,
    TF.argmax_row row = Ok i /\
    nth_error labels i = Some pred /\
    postprocess_with labels sm [row] =
    Ok {| prediction := pred;
          probabilities :=
            dict_assign
              (combine (firstn (List.length row) labels) (sm row)) [] |}.
Proof.
  intros Hne Hsm Hlen. destruct row as [|y t]; [congruence|].
  destruct (argmax_row_correct y t) as [i [Hi [Hlt _]]].
  destruct (nth_error labels i) as [pred|] eqn:Hn.
  2:{ apply nth_error_None in Hn. lia. }
  exists i, pred. split; [exact Hi|]. split; [exact Hn|].
  unfold TF.argmax_row in Hi. injection Hi as Hi.
  unfold postprocess_with, TF.argmax, getitem.
  cbn [TF.mapM TF.argmax_row rbind nth_error map]. rewrite Hi, Hn.
  cbn [rbind]. unfold enumerate. rewrite probabilities_of_ok.
  - rewrite Hsm. reflexivity.
  - rewrite Hsm. simpl. exact Hlen.
Qed.
End PostprocessFacts.

(** Two lists that agree entry by entry within [eps] have sums within
    [eps] times their length. *)
Lemma reduce_sum_close (eps : R) (a b : list R) :
  List.length a = List.length b ->
  (forall i, (i < List.length b)%nat ->
             (Rabs (nth i a 0 - nth i b 0) <= eps)%R) ->
  (Rabs (TF.reduce_sum a - TF.reduce_sum b) <= INR (List.length b) * eps)%R.
Proof.
  revert b. induction a as [|x a IH]; intros [|y b] Hl Hc;
    try discriminate Hl.
  - simpl. rewrite Rminus_diag, Rabs_R0. lra.
  - injection Hl as Hl.
    assert (H0 : (Rabs (x - y) <= eps)%R) by (apply (Hc 0%nat); simpl; lia).
    assert (Ht : (Rabs (TF.reduce_sum a - TF.reduce_sum b)
                  <= INR (List.length b) * eps)%R).
    { apply IH; [exact Hl|]. intros i Hi. apply (Hc (S i)). simpl. lia. }
    change (List.length (y :: b)) with (S (List.length b)). rewrite S_INR.
    cbn [TF.reduce_sum fold_right].
    replace (x + fold_right Rplus 0 a - (y + fold_right Rplus 0 b))%R
      with ((x - y) + (TF.reduce_sum a - TF.reduce_sum b))%R
      by (unfold TF.reduce_sum; ring).
    eapply Rle_trans; [apply Rabs_triang|]. lra.
Qed.

Lemma values_combine (A B : Type) (l : list A) (l' : list B) :
  (List.length l' <= List.length l)%nat -> map snd (combine l l') = l'.
Proof.
  revert l'. induction l as [|a l IH]; intros [|b l'] H; simpl in *;
    try reflexivity; try lia.
  f_equal. apply IH. lia.
Qed.

Lemma keys_combine (A B : Type) (l : list A) (l' : list B) :
  map fst (combine l l') = firstn (List.length l') l.
Proof.
  revert l'. induction l as [|a l IH]; intros [|b l']; simpl;
    try reflexivity.
  f_equal. apply IH.
Qed.

Lemma nth_one_hot (n k q : nat) (c : R) :
  (q < n)%nat -> nth q (one_hot n k c) 0%R = if (q =? k)%nat then c else 0%R.
Proof.
  intros Hq. unfold one_hot.
  set (f := fun i => if (i =? k)%nat then c else 0%R).
  rewrite nth_indep with (d' := f 0%nat)
    by (rewrite length_map, length_seq; exact Hq).
  rewrite map_nth, seq_nth by exact Hq. reflexivity.
Qed.

Lemma one_hot_length (n k : nat) (c : R) : List.length (one_hot n k c) = n.
Proof. unfold one_hot. now rewrite length_map, length_seq. Qed.

(** The arg-max of a one-hot row scaled by a positive constant is the
    index of the one. *)
Lemma argmax_one_hot (n k : nat) (c : R) :
  (k < n)%nat -> (0 < c)%R -> TF.argmax_row (one_hot n k c) = Ok k.
Proof.
  intros Hk Hc.
  destruct (one_hot n k c) as [|y t] eqn:E.
  - apply (f_equal (@List.length R)) in E. rewrite one_hot_length in E.
    simpl in E. lia.
  - destruct (argmax_row_correct y t) as [i [Hi [Hlt [Hmax _]]]].
    rewrite Hi. f_equal.
    assert (Hn : List.length (y :: t) = n) by (rewrite <- E; apply one_hot_length).
    rewrite Hn in *. specialize (Hmax k Hk).
    rewrite <- E in Hmax. rewrite !nth_one_hot in Hmax by assumption.
    rewrite Nat.eqb_refl in Hmax.
    destruct (Nat.eqb_spec i k) as [Heq|Hneq]; [exact Heq|lra].
Qed.

Lemma NoDup_app_disjoint (A : Type) (l1 l2 : list A) :
  NoDup (l1 ++ l2) -> forall a, In a l2 -> ~ In a l1.
Proof.
  induction l1 as [|x l1 IH]; simpl; intros Hnd a H2 H1.
  - exact H1.
  - inversion Hnd as [|? ? Hx Hnd']; subst.
    destruct H1 as [->|H1].
    + apply Hx. apply in_or_app. right. exact H2.
    + exact (IH Hnd' a H2 H1).
Qed.

(** With pairwise distinct labels the comprehension yields one entry per
    label of the prefix it covers, in the order of the label list. *)
Lemma dict_assign_distinct_labels (labels : list string) (ps : list R) :
  NoDup labels ->
  (List.length ps <= List.length labels)%nat ->
  dict_assign (combine (firstn (List.length ps) labels) ps) [] =
  combine (firstn (List.length ps) labels) ps.
Proof.
  intros Hnd Hlen. rewrite dict_assign_fresh; [reflexivity|].
  simpl. rewrite keys_combine, firstn_firstn, Nat.min_id.
  rewrite <- (firstn_skipn (List.length ps) labels) in Hnd.
  exact (NoDup_app_remove_r _ _ Hnd).
Qed.

(* ================================================================= *)
(** ** Post-processing: which logits are accepted *)

(** C2, as amended.  The closure compares no lengths.  On a batch holding
    one logits vector it returns normally exactly when the vector is
    non-empty and not longer than the label list -- a vector shorter than
    the label list is accepted.  It fails with [IndexError] when the vector
    is longer than the label list, and with TensorFlow's
    [InvalidArgumentError] when the vector is empty; these are the only
    failures. *)
Theorem postprocess_accepts_iff_fits (labels : list string) (row : list R) :
  match postprocess labels [row] with
  | Ok _ => (0 < List.length row <= List.length labels)%nat
  | Raise e =>
      (row = [] /\ e = InvalidArgumentError) \/
      ((List.length labels < List.length row)%nat /\ e = IndexError)
  end.
Proof.
  destruct row as [|y t].
  - rewrite postprocess_empty_row. left. split; reflexivity.
  - destruct (Nat.le_gt_cases (List.length (y :: t)) (List.length labels))
      as [Hle|Hgt].
    + destruct (@postprocess_accepts labels (y :: t)) as [i [pred [_ [_ H]]]];
        [discriminate|exact Hle|].
      rewrite H. simpl in *. lia.
    + rewrite (postprocess_overflow labels (y :: t) Hgt).
      right. split; [exact Hgt|reflexivity].
Qed.

(** C2 fails as stated: two logits against three labels are accepted. *)
Lemma postprocess_accepts_short_logits :
  List.length [1; 0]%R <> List.length ["star"; "planet"; "moon"]%string /\
  exists r, postprocess ["star"; "planet"; "moon"]%string [[1; 0]%R] = Ok r.
Proof.
  split; [simpl; lia|].
  destruct (@postprocess_accepts ["star"; "planet"; "moon"]%string [1; 0]%R)
    as [i [pred [_ [_ H]]]]; [discriminate|simpl; lia|].
  eexists. exact H.
Qed.

(** C10, as amended.  For a non-empty logits row: if it is strictly
    shorter than the label list, the closure returns normally and the keys
    of [probabilities] are exactly the first [len(row)] labels (with
    pairwise distinct labels: these labels in order, every later label
    being absent); if it is longer than the label list, or its arg-max
    index is not below [len(labels)], the label lookup raises
    [IndexError]. *)
Theorem postprocess_without_length_check (labels : list string) (row : list R) :
  row <> [] ->
  ((List.length row < List.length labels)%nat ->
   exists r,
     postprocess labels [row] = Ok r /\
     (forall l, In l (keys (probabilities r)) <->
                In l (firstn (List.length row) labels)) /\
     (NoDup labels ->
      keys (probabilities r) = firstn (List.length row) labels /\
      forall l, In l (skipn (List.length row) labels) ->
                ~ In l (keys (probabilities r)))) /\
  ((List.length labels < List.length row)%nat ->
   postprocess labels [row] = Raise IndexError) /\
  (forall i, TF.argmax_row row = Ok i -> (List.length labels <= i)%nat ->
             postprocess labels [row] = Raise IndexError).
Proof.
  intros Hne. split; [|split].
  - intros Hlt.
    destruct (@postprocess_accepts labels row) as [i [pred [_ [_ H]]]];
      [exact Hne|lia|].
    eexists. split; [exact H|]. simpl.
    assert (Hk : forall ps : list R,
               List.length ps = List.length row ->
               map fst (combine (firstn (List.length row) labels) ps) =
               firstn (List.length row) labels).
    { intros ps Hps. rewrite keys_combine, Hps, firstn_firstn, Nat.min_id.
      reflexivity. }
    split.
    + intros l. rewrite keys_dict_assign. simpl.
      rewrite Hk by apply softmax_row_length. intuition.
    + intros Hnd.
      assert (E : dict_assign
                    (combine (firstn (List.length row) labels)
                       (TF.softmax_row row)) [] =
                  combine (firstn (List.length row) labels)
                    (TF.softmax_row row)).
      { pose proof (@dict_assign_distinct_labels labels (TF.softmax_row row) Hnd)
          as D.
        rewrite softmax_row_length in D. apply D. lia. }
      rewrite E. unfold keys.
      rewrite Hk by apply softmax_row_length.
      split; [reflexivity|].
      intros l Hl.
      apply NoDup_app_disjoint with (l2 := skipn (List.length row) labels).
      * rewrite firstn_skipn. exact Hnd.
      * exact Hl.
  - apply postprocess_overflow.
  - intros i Hi Hge. destruct row as [|y t]; [congruence|].
    apply postprocess_overflow.
    destruct (argmax_row_correct y t) as [i' [Hi' [Hlt _]]].
    rewrite Hi in Hi'. injection Hi' as <-. lia.
Qed.

(** The statement at three labels and the two logits [2; 1]. *)
Lemma postprocess_without_length_check_witness :
  [2; 1]%R <> [] /\
  exists r,
    postprocess ["star"; "planet"; "moon"]%string [[2; 1]%R] = Ok r /\
    forall l, In l (keys (probabilities r)) <->
              In l ["star"; "planet"]%string.
Proof.
  split; [discriminate|].
  destruct (@postprocess_without_length_check
              ["star"; "planet"; "moon"]%string [2; 1]%R)
    as [H _]; [discriminate|].
  destruct H as [r [Hr [Hk _]]]; [simpl; lia|].
  exists r. split; [exact Hr|exact Hk].
Defined.

(** C10 fails as stated at the empty row, which is strictly shorter than
    a one-element label list and yet raises inside [tf.argmax]; and a
    label beyond the row is still a key when it repeats an earlier one. *)
Lemma postprocess_empty_row_rejected :
  (List.length (@nil R) < List.length ["star"%string])%nat /\
  postprocess ["star"%string] [[]] = Raise InvalidArgumentError /\
  exists r,
    postprocess ["a"; "b"; "a"]%string [[1; 0]%R] = Ok r /\
    nth_error ["a"; "b"; "a"]%string 2 = Some "a"%string /\
    In "a"%string (keys (probabilities r)).
Proof.
  split; [simpl; lia|]. split; [reflexivity|].
  destruct (@postprocess_accepts ["a"; "b"; "a"]%string [1; 0]%R)
    as [i [pred [_ [_ H]]]]; [discriminate|simpl; lia|].
  eexists. split; [exact H|]. split; [reflexivity|].
  simpl. left. reflexivity.
Qed.

(* ================================================================= *)
(** ** Post-processing of a scaled one-hot vector *)

(** C4, as amended.  Let [sm] be what the float32 kernel of
    [tf.nn.softmax] returns, and let it be within the tolerance [eps] of
    the exact softmax, entry by entry, on the row at hand.  With pairwise
    distinct labels, for the one-hot vector of length [len(labels)] with
    its one at index [k], scaled by a positive constant however large, the
    closure returns as [prediction] the label at index [k], and as
    [probabilities] the labels in the order of the label list, each with
    the probability the kernel returned at its index; the probabilities
    sum to one within [len(labels)] times the tolerance. *)
Theorem postprocess_one_hot (sm : list R -> list R) (eps : R)
  (labels : list string) (k : nat) (c : R) :
  let row := one_hot (List.length labels) k c in
  List.length (sm row) = List.length row ->
  (forall i, (i < List.length row)%nat ->
             (Rabs (nth i (sm row) 0 - nth i (TF.softmax_row row) 0) <= eps)%R) ->
  NoDup labels ->
  (k < List.length labels)%nat ->
  (0 < c)%R ->
  exists r,
    postprocess_with labels sm [row] = Ok r /\
    nth_error labels k = Some (prediction r) /\
    probabilities r = combine labels (sm row) /\
    keys (probabilities r) = labels /\
    (Rabs (TF.reduce_sum (values (probabilities r)) - 1)
     <= INR (List.length labels) * eps)%R.
Proof.
  intros row Hsm Hclose Hnd Hk Hc.
  assert (Hlen : List.length row = List.length labels) by apply one_hot_length.
  assert (Hne : row <> []).
  { intro E. rewrite E in Hlen. simpl in Hlen. lia. }
  destruct (@postprocess_with_accepts labels sm row) as [i [pred [Hi [Hp H]]]];
    [exact Hne|exact Hsm|lia|].
  unfold row in Hi. rewrite argmax_one_hot in Hi by assumption.
  injection Hi as <-.
  pose proof (@dict_assign_distinct_labels labels (sm row) Hnd) as D.
  rewrite Hsm, Hlen in D. specialize (D (le_n _)).
  rewrite Hlen, D, firstn_all in H.
  eexists. split; [exact H|]. simpl.
  split; [exact Hp|]. split; [reflexivity|].
  split.
  - unfold keys. rewrite keys_combine, Hsm, Hlen.
    apply firstn_all.
  - unfold values. rewrite values_combine by (rewrite Hsm; lia).
    rewrite <- (reduce_sum_softmax_row Hne), <- Hlen.
    rewrite <- (softmax_row_length row).
    apply reduce_sum_close.
    + rewrite softmax_row_length. exact Hsm.
    + intros i Hi. apply Hclose. rewrite <- (softmax_row_length row). exact Hi.
Qed.

(** The statement at two labels, with the one at index 0 scaled by 100,
    for the exact softmax, which is within tolerance 0 of itself. *)
Lemma postprocess_one_hot_witness :
  exists r,
    postprocess ["star"; "planet"]%string [one_hot 2 0 100] = Ok r /\
    nth_error ["star"; "planet"]%string 0 = Some (prediction r) /\
    (Rabs (TF.reduce_sum (values (probabilities r)) - 1) <= 0)%R.
Proof.
  destruct (@postprocess_one_hot TF.softmax_row 0%R
              ["star"; "planet"]%string 0 100%R)
    as [r [Hr [Hp [_ [_ Hs]]]]].
  - reflexivity.
  - intros i _. rewrite Rminus_diag, Rabs_R0. lra.
  - repeat constructor; simpl; intuition discriminate.
  - simpl; lia.
  - lra.
  - exists r. split; [exact Hr|]. split; [exact Hp|].
    simpl INR in Hs. lra.
Defined.

(** C4 fails as stated when a label occurs twice: the second assignment
    to the key replaces the first, so the mapping has a single entry whose
    value is the softmax probability of the last index, and the
    probabilities sum to less than one half. *)
Lemma duplicate_labels_collapse :
  exists r,
    postprocess ["a"; "a"]%string
      [one_hot (List.length ["a"; "a"]%string) 0 100] = Ok r /\
    keys (probabilities r) <> ["a"; "a"]%string /\
    (TF.reduce_sum (values (probabilities r)) < 1 / 2)%R.
Proof.
  destruct (@postprocess_accepts ["a"; "a"]%string (one_hot 2 0 100))
    as [i [pred [_ [_ H]]]]; [discriminate|simpl; lia|].
  eexists. split; [exact H|]. simpl.
  split; [discriminate|].
  assert (E100 : (1 < exp 100)%R).
  { rewrite <- exp_0. apply exp_increasing. lra. }
  rewrite exp_0, Rplus_0_r, Rplus_0_r.
  apply (Rmult_lt_reg_r (exp 100 + 1)); [lra|].
  unfold Rdiv. rewrite Rmult_assoc, Rinv_l by lra. lra.
Qed.

(* ================================================================= *)
(** ** Pre-processing *)

Lemma length_flat_map_const (A B : Type) (f : A -> list B) (n : nat) (l : list A) :
  (forall a, List.length (f a) = n) ->
  List.length (flat_map f l) = (List.length l * n)%nat.
Proof.
  intros Hf. induction l as [|a l IH]; simpl.
  - reflexivity.
  - rewrite length_app, Hf, IH. reflexivity.
Qed.

(** The array of an image has one element per sample. *)
Lemma array_data_length (img : PIL.image) :
  List.length (NP.data (NP.array img)) =
  (Z.to_nat (snd (PIL.im_size img)) * (Z.to_nat (fst (PIL.im_size img)) *
     PIL.bands (PIL.im_mode img)))%nat.
Proof.
  unfold NP.array. simpl.
  rewrite length_flat_map_const
    with (n := (Z.to_nat (fst (PIL.im_size img)) * PIL.bands (PIL.im_mode img))%nat).
  - now rewrite length_seq.
  - intros y. rewrite length_flat_map_const with (n := PIL.bands (PIL.im_mode img)).
    + now rewrite length_seq.
    + intros x. now rewrite length_map, length_seq.
Qed.

(** A sample divided by 255 lies between 0 and 1. *)
Lemma scaled_sample_range (b : Byte.byte) :
  (0 <= NP.uint8_value b / 255 /\ NP.uint8_value b / 255 <= 1)%Q.
Proof.
  pose proof (Byte.to_N_bounded b) as Hb.
  unfold NP.uint8_value, Qle, Qdiv, Qmult, Qinv, inject_Z. simpl.
  lia.
Qed.

Section PreprocessFacts.
Variable pillow : PIL.codec.
Variable grayscale : bool.
Variable image_size : Z * Z.

Lemma preprocess_valid_size (x : PIL.image) :
  (0 < fst image_size)%Z -> (0 < snd image_size)%Z ->
  PIL.resize pillow image_size
    (PIL.convert pillow (if grayscale then PIL.Mode_L else PIL.Mode_RGB) x) =
    Ok (prepared_image pillow grayscale image_size x) /\
  preprocess pillow grayscale image_size x =
    Ok (NP.expand_dims0
          (NP.true_divide
             (NP.array (prepared_image pillow grayscale image_size x)) 255)).
Proof.
  intros Hw Hh. unfold preprocess, PIL.resize, prepared_image.
  destruct (fst image_size <? 1)%Z eqn:E1; [apply Z.ltb_lt in E1; lia|].
  destruct (snd image_size <? 1)%Z eqn:E2; [apply Z.ltb_lt in E2; lia|].
  cbv zeta.
  destruct (PIL.same_size _ image_size); simpl; split; reflexivity.
Qed.

Lemma same_size_eq (a b : Z * Z) : PIL.same_size a b = true -> a = b.
Proof.
  destruct a as [a1 a2], b as [b1 b2]. unfold PIL.same_size. simpl.
  intros H. apply andb_prop in H. destruct H as [H1 H2].
  apply Z.eqb_eq in H1, H2. now subst.
Qed.

(** Mode and size of the image handed to NumPy. *)
Lemma prepared_image_format (x : PIL.image) :
  PIL.im_mode (prepared_image pillow grayscale image_size x) =
    (if grayscale then PIL.Mode_L else PIL.Mode_RGB) /\
  PIL.im_size (prepared_image pillow grayscale image_size x) = image_size.
Proof.
  unfold prepared_image. cbv zeta.
  destruct (PIL.same_size _ image_size) eqn:E.
  - split; [reflexivity|]. apply same_size_eq in E. exact E.
  - split; reflexivity.
Qed.
End PreprocessFacts.

(** Whenever [get_model] returns, it returns the model of its five
    layers. *)
Lemma get_model_returns (image_shape : Z * Z * Z)
  (conv_size dense_size output_classes : Z) (m : Keras.sequential) :
  get_model image_shape conv_size dense_size output_classes = Ok m ->
  m = Keras.Sequential
        (get_model_layers image_shape conv_size dense_size output_classes).
Proof.
  unfold get_model, Keras.build, get_model_layers.
  destruct image_shape as [[h w] c].
  destruct (Keras.output_shape _ _); simpl; intros H; [|discriminate].
  now injection H as <-.
Qed.

(** The shapes of an image with sides of at least 5 fit through the five
    layers. *)
Lemma get_model_layers_fit (H W C conv_size dense_size output_classes : Z) :
  (5 <= H)%Z -> (5 <= W)%Z ->
  Keras.output_shape
    (get_model_layers (H, W, C) conv_size dense_size output_classes)
    [H; W; C] = Some [output_classes].
Proof.
  intros HH HW. unfold get_model_layers. simpl.
  destruct (3 <=? H)%Z eqn:E1; [|apply Z.leb_gt in E1; lia].
  destruct (3 <=? W)%Z eqn:E2; [|apply Z.leb_gt in E2; lia].
  simpl.
  destruct (3 <=? H - 3 + 1)%Z eqn:E3; [|apply Z.leb_gt in E3; lia].
  destruct (3 <=? W - 3 + 1)%Z eqn:E4; [|apply Z.leb_gt in E4; lia].
  reflexivity.
Qed.

(** With both sides at least 5 the constructor accepts the layers. *)
Lemma get_model_builds (H W C conv_size dense_size output_classes : Z) :
  (5 <= H)%Z -> (5 <= W)%Z ->
  get_model (H, W, C) conv_size dense_size output_classes =
  Ok (Keras.Sequential
        (get_model_layers (H, W, C) conv_size dense_size output_classes)).
Proof.
  intros HH HW.
  pose proof (@get_model_layers_fit H W C conv_size dense_size output_classes
                HH HW) as Hfit.
  unfold get_model, Keras.build.
  change (get_model_layers (H, W, C) conv_size dense_size output_classes)
    with (Keras.Conv2D conv_size (3, 3)%Z (Some Keras.relu) (Some (H, W, C))
          :: tl (get_model_layers (H, W, C) conv_size dense_size
                   output_classes)) at 1.
  cbv iota beta.
  change (Keras.Conv2D conv_size (3, 3)%Z (Some Keras.relu) (Some (H, W, C))
          :: tl (get_model_layers (H, W, C) conv_size dense_size
                   output_classes))
    with (get_model_layers (H, W, C) conv_size dense_size output_classes).
  rewrite Hfit. reflexivity.
Qed.

(** C3.  For a captured [image_size] with positive sides and any input
    image, whatever its own size and mode, the closure returns an array:
    the image is converted to mode L (one band) if [grayscale] and to mode
    RGB (three bands) otherwise, resized to [image_size], every sample is
    divided by 255, which takes the integers 0..255 into the rationals
    between 0 and 1, and a leading dimension of size 1 is added. *)
Theorem preprocess_contract (pillow : PIL.codec) (grayscale : bool)
  (image_size : Z * Z) (x : PIL.image) :
  (0 < fst image_size)%Z ->
  (0 < snd image_size)%Z ->
  let m := if grayscale then PIL.Mode_L else PIL.Mode_RGB in
  exists y a,
    PIL.resize pillow image_size (PIL.convert pillow m x) = Ok y /\
    PIL.im_mode y = m /\
    PIL.bands m = (if grayscale then 1 else 3)%nat /\
    PIL.im_size y = image_size /\
    preprocess pillow grayscale image_size x = Ok a /\
    NP.shape a = 1%Z :: NP.shape (NP.array y) /\
    NP.data a = map (fun b => (NP.uint8_value b / 255)%Q) (NP.data (NP.array y)) /\
    Forall (fun v => (0 <= v /\ v <= 1)%Q) (NP.data a) /\
    List.length (NP.data a) =
      (Z.to_nat (snd image_size) * (Z.to_nat (fst image_size) * PIL.bands m))%nat.
Proof.
  intros Hw Hh m.
  destruct (@preprocess_valid_size pillow grayscale image_size x Hw Hh) as [Hr Hp].
  destruct (prepared_image_format pillow grayscale image_size x) as [Hm Hs].
  exists (prepared_image pillow grayscale image_size x).
  eexists. split; [exact Hr|]. split; [exact Hm|].
  split; [unfold m; destruct grayscale; reflexivity|].
  split; [exact Hs|]. split; [exact Hp|].
  split; [reflexivity|]. split; [reflexivity|].
  split.
  - apply Forall_forall. intros v Hv. simpl in Hv.
    apply in_map_iff in Hv. destruct Hv as [b [<- _]].
    apply scaled_sample_range.
  - cbn [NP.data NP.expand_dims0 NP.true_divide]. rewrite length_map.
    rewrite (array_data_length (prepared_image pillow grayscale image_size x)).
    rewrite Hm, Hs. reflexivity.
Qed.

(** C9.  For a captured [image_size = (s0, s1)] with positive sides: when
    [grayscale] is true the closure returns an array of rank 3 and shape
    [(1, s1, s0)], without channel axis, while the model of the same run is
    declared for inputs of shape [(s0, s1, 1)] -- and built for them by
    [get_model], which returns it when both sides are at least 5 and
    returns no other; when [grayscale] is false the array has the shape
    [(1, s1, s0, 3)]. *)
Theorem preprocess_grayscale_shape (pillow : PIL.codec) (image_size : Z * Z)
  (x : PIL.image) (conv_size dense_size output_classes : Z) :
  (0 < fst image_size)%Z ->
  (0 < snd image_size)%Z ->
  (exists a,
      preprocess pillow true image_size x = Ok a /\
      NP.shape a = [1; snd image_size; fst image_size]%Z /\
      NP.ndim a = 3%nat) /\
  Keras.model_input_shape
    (Keras.Sequential
       (get_model_layers (image_shape image_size true)
          conv_size dense_size output_classes)) =
    Some (fst image_size, snd image_size, 1%Z) /\
  (forall m,
      get_model (image_shape image_size true)
        conv_size dense_size output_classes = Ok m ->
      Keras.model_input_shape m = Some (fst image_size, snd image_size, 1%Z)) /\
  ((5 <= fst image_size)%Z -> (5 <= snd image_size)%Z ->
   exists m,
     get_model (image_shape image_size true)
       conv_size dense_size output_classes = Ok m /\
     Keras.model_input_shape m = Some (fst image_size, snd image_size, 1%Z)) /\
  (exists a,
      preprocess pillow false image_size x = Ok a /\
      NP.shape a = [1; snd image_size; fst image_size; 3]%Z /\
      NP.ndim a = 4%nat).
Proof.
  intros Hw Hh. split; [|split; [|split; [|split]]].
  - destruct (@preprocess_valid_size pillow true image_size x Hw Hh) as [_ Hp].
    destruct (prepared_image_format pillow true image_size x) as [Hm Hs].
    eexists. split; [exact Hp|].
    unfold NP.ndim. simpl NP.shape. rewrite Hm, Hs. split; reflexivity.
  - reflexivity.
  - intros m Hm. apply get_model_returns in Hm. subst m. reflexivity.
  - intros H5w H5h. eexists. split.
    + unfold image_shape. apply get_model_builds; assumption.
    + reflexivity.
  - destruct (@preprocess_valid_size pillow false image_size x Hw Hh) as [_ Hp].
    destruct (prepared_image_format pillow false image_size x) as [Hm Hs].
    eexists. split; [exact Hp|].
    unfold NP.ndim. simpl NP.shape. rewrite Hm, Hs. split; reflexivity.
Qed.

(** The statements for the 2x1 sample image and the size (4, 2). *)
Lemma preprocess_contract_witness :
  exists a,
    preprocess Sample.codec true (4, 2)%Z Sample.image = Ok a /\
    Forall (fun v => (0 <= v /\ v <= 1)%Q) (NP.data a) /\
    List.length (NP.data a) = 8%nat.
Proof.
  destruct (@preprocess_contract Sample.codec true (4, 2)%Z Sample.image)
    as [y [a [_ [_ [_ [_ [Hp [_ [_ [Hr Hl]]]]]]]]]].
  - reflexivity.
  - reflexivity.
  - exists a. split; [exact Hp|]. split; [exact Hr|exact Hl].
Defined.

Lemma preprocess_grayscale_shape_witness :
  (exists a,
      preprocess Sample.codec true (4, 2)%Z Sample.image = Ok a /\
      NP.shape a = [1; 2; 4]%Z /\ NP.ndim a = 3%nat) /\
  Keras.model_input_shape
    (Keras.Sequential (get_model_layers (image_shape (4, 2)%Z true) 32 64 11)) =
    Some (4, 2, 1)%Z.
Proof.
  destruct (@preprocess_grayscale_shape Sample.codec (4, 2)%Z Sample.image
              32 64 11) as [Hg [Hm _]].
  - reflexivity.
  - reflexivity.
  - split; [exact Hg|exact Hm].
Defined.

(* ================================================================= *)
(** ** The model builder *)

(** C1, as amended.  For every image shape [(H, W, C)] of positive integers
    with both sides at least 5, and positive [conv_size], [dense_size] and
    [output_classes], [get_model] returns a sequential model, and it is
    exactly Conv2D([conv_size] filters, 3x3 kernel, ReLU, input shape
    [image_shape]) -> MaxPooling2D(3x3) -> Flatten -> Dense([dense_size],
    ReLU) -> Dense([output_classes], no activation).  Its output layer has
    width [output_classes], its input shape is [image_shape], and the
    shapes propagate through the five layers down to
    [(output_classes)]. *)
Theorem get_model_architecture (H W C conv_size dense_size output_classes : Z) :
  (5 <= H)%Z ->
  (5 <= W)%Z ->
  (0 < C)%Z ->
  (0 < conv_size)%Z ->
  (0 < dense_size)%Z ->
  (0 < output_classes)%Z ->
  exists m,
    get_model (H, W, C) conv_size dense_size output_classes = Ok m /\
    m = Keras.Sequential
          [ Keras.Conv2D conv_size (3, 3)%Z (Some Keras.relu) (Some (H, W, C));
            Keras.MaxPooling2D (3, 3)%Z;
            Keras.Flatten;
            Keras.Dense dense_size (Some Keras.relu);
            Keras.Dense output_classes None ] /\
    Keras.model_output_width m = Some output_classes /\
    Keras.model_input_shape m = Some (H, W, C) /\
    Keras.output_shape (Keras.layers m) [H; W; C] = Some [output_classes].
Proof.
  intros HH HW _ _ _ _.
  exists (Keras.Sequential
            (get_model_layers (H, W, C) conv_size dense_size output_classes)).
  split; [apply get_model_builds; assumption|].
  split; [reflexivity|]. split; [reflexivity|]. split; [reflexivity|].
  apply get_model_layers_fit; assumption.
Qed.

(** The statement for 64x64 colour images, 32 filters, 64 dense units and
    11 classes. *)
Lemma get_model_architecture_witness :
  exists m,
    get_model (64, 64, 3)%Z 32 64 11 = Ok m /\
    Keras.model_output_width m = Some 11%Z /\
    Keras.output_shape (Keras.layers m) [64; 64; 3]%Z = Some [11%Z].
Proof.
  destruct (@get_model_architecture 64%Z 64%Z 3%Z 32%Z 64%Z 11%Z)
    as [m [Hm [_ [Hw [_ Hs]]]]]; [lia|lia|lia|lia|lia|lia|].
  exists m. split; [exact Hm|]. split; [exact Hw|exact Hs].
Defined.

(** C1 fails as stated on an image too small for the 3x3 kernel: the
    constructor raises and [get_model] returns no model. *)
Lemma get_model_rejects_small_image :
  get_model (1, 1, 3)%Z 16 64 11 = Raise ValueError.
Proof. reflexivity. Qed.

(* ================================================================= *)
(** ** Runs of [main]: stepping through the process monad *)

Lemma bind_done_inv (A B : Type) (m : M A) (k : A -> M B) (w w' : world) (b : B) :
  bind m k w = (Done b, w') ->
  exists a w1, m w = (Done a, w1) /\ k a w1 = (Done b, w').
Proof.
  unfold bind. destruct (m w) as [[a|s|e] w1]; intros H; try discriminate.
  exists a, w1. split; [reflexivity|exact H].
Qed.

Lemma lift_done_inv (A : Type) (r : result A) (w w' : world) (a : A) :
  lift r w = (Done a, w') -> r = Ok a /\ w' = w.
Proof.
  destruct r as [a0|e]; simpl; unfold ret, raise; intros H;
    inversion H; subst; split; reflexivity.
Qed.

Ltac bind_inv H :=
  let a := fresh "a" in
  let w1 := fresh "w" in
  let H1 := fresh "Hstep" in
  apply bind_done_inv in H; destruct H as [a [w1 [H1 H]]].

Tactic Notation "bind_step" hyp(H) "as" ident(a) ident(Hs) :=
  let w1 := fresh "w" in
  apply bind_done_inv in H; destruct H as [a [w1 [Hs H]]].

Ltac lift_inv H :=
  let E := fresh "E" in
  apply lift_done_inv in H; destruct H as [E ->].

(** The dictionary after the logs of some epochs were recorded. *)
Lemma record_logs_history_of (logs : list epoch_logs) (l : epoch_logs) :
  record_logs l (history_of logs) = history_of (logs ++ [l]).
Proof.
  destruct logs as [|l0 logs].
  - reflexivity.
  - unfold record_logs, history_append. simpl. rewrite !map_app. reflexivity.
Qed.

Lemma fold_record_logs (logs : list epoch_logs) :
  forall done,
    fold_left (fun h l => record_logs l h) logs (history_of done) =
    history_of (done ++ logs).
Proof.
  induction logs as [|l logs IH]; intros done; simpl.
  - now rewrite app_nil_r.
  - rewrite record_logs_history_of, IH, <- app_assoc. reflexivity.
Qed.

Lemma zip_records_logs (logs : list epoch_logs) :
  forall e,
    zip_records e (map loss logs) (map sparse_categorical_accuracy logs)
      (map val_loss logs) (map val_sparse_categorical_accuracy logs) =
    map (fun p => record_of (fst p) (snd p))
      (combine (seq e (List.length logs)) logs).
Proof.
  induction logs as [|l logs IH]; intros e; simpl.
  - reflexivity.
  - rewrite IH. reflexivity.
Qed.

(** Reading the recorded dictionary back as records loses nothing. *)
Lemma history_records_history_of (logs : list epoch_logs) :
  history_records (history_of logs) =
  map (fun p => record_of (fst p) (snd p))
    (combine (seq 1 (List.length logs)) logs).
Proof.
  destruct logs as [|l logs]; [reflexivity|].
  unfold history_records, history_column. simpl dict_get.
  apply (zip_records_logs (l :: logs)).
Qed.

Lemma epoch_ends_app (a b : list event) :
  epoch_ends (a ++ b) = epoch_ends a ++ epoch_ends b.
Proof.
  induction a as [|e a IH]; simpl; [reflexivity|].
  destruct e; simpl; rewrite ?IH; reflexivity.
Qed.

Section Runs.
Variable env : environment.
Variable eng : engine.

(** A completed epoch adds its logs to the history and one [EpochEnd]
    to the trace; it writes no file and registers no model. *)
Lemma fit_epoch_done (c : compile_config) (ds_train ds_val : dataset)
  (epoch total : nat) (m m' : model) (w w' : world) :
  fit_epoch eng c ds_train ds_val epoch total m w = (Done m', w') ->
  exists logs evs,
    trace w' = trace w ++ evs /\
    epoch_ends evs = [(epoch, logs)] /\
    bento_store w' = bento_store w /\
    files w' = files w /\
    m_history m' = record_logs logs (m_history m) /\
    m_arch m' = m_arch m /\
    m_compiled m' = m_compiled m.
Proof.
  unfold fit_epoch. intros H.
  bind_inv H. bind_inv H. bind_inv H. bind_inv H. bind_inv H.
  bind_inv H. bind_inv H. bind_inv H. bind_inv H. bind_inv H. bind_inv H.
  repeat match goal with
         | Hs : lift _ _ = (Done _, _) |- _ => lift_inv Hs
         | Hs : emit _ _ = (Done _, _) |- _ => inversion Hs; subst; clear Hs
         | Hs : get_rng _ = (Done _, _) |- _ => inversion Hs; subst; clear Hs
         | Hs : put_rng _ _ = (Done _, _) |- _ => inversion Hs; subst; clear Hs
         end.
  inversion H; subst; clear H. simpl.
  eexists. eexists. split.
  { rewrite <- !app_assoc. simpl. reflexivity. }
  simpl. repeat split; reflexivity.
Qed.

Lemma fit_loop_done (c : compile_config) (ds_train ds_val : dataset)
  (total : nat) (n : nat) :
  forall epoch m m' w w',
    fit_loop eng c ds_train ds_val n epoch total m w = (Done m', w') ->
    exists logs evs,
      List.length logs = n /\
      trace w' = trace w ++ evs /\
      epoch_ends evs = combine (seq epoch n) logs /\
      bento_store w' = bento_store w /\
      files w' = files w /\
      m_history m' = fold_left (fun h l => record_logs l h) logs (m_history m) /\
      m_arch m' = m_arch m /\
      m_compiled m' = m_compiled m.
Proof.
  induction n as [|n IH]; intros epoch m m' w w' H; simpl in H.
  - inversion H; subst. exists [], []. rewrite app_nil_r.
    repeat split; reflexivity.
  - bind_inv H.
    apply fit_epoch_done in Hstep.
    destruct Hstep as [l [ev1 [Ht1 [He1 [Hs1 [Hf1 [Hh1 [Ha1 Hc1]]]]]]]].
    apply IH in H.
    destruct H as [logs [ev2 [Hl [Ht2 [He2 [Hs2 [Hf2 [Hh2 [Ha2 Hc2]]]]]]]]].
    exists (l :: logs), (ev1 ++ ev2).
    split; [simpl; now rewrite Hl|].
    split; [rewrite Ht2, Ht1, app_assoc; reflexivity|].
    split; [rewrite epoch_ends_app, He1, He2; reflexivity|].
    split; [congruence|]. split; [congruence|].
    split; [simpl; rewrite Hh2, Hh1; reflexivity|].
    split; congruence.
Qed.
End Runs.

Lemma adds_trans (e1 e2 : list event) (w w1 w2 : world) :
  adds e1 w w1 -> adds e2 w1 w2 -> adds (e1 ++ e2) w w2.
Proof.
  intros [T1 [S1 F1]] [T2 [S2 F2]]. unfold adds.
  rewrite T2, T1, S2, S1, F2, F1, app_assoc. repeat split; reflexivity.
Qed.

Lemma store_latest_last (name : string) (b : bento) (s : list (string * bento)) :
  store_latest name (s ++ [(name, b)]) = Some b.
Proof.
  induction s as [|[n b0] s IH]; simpl.
  - now rewrite String.eqb_refl.
  - now rewrite IH.
Qed.

Section Steps.
Variable env : environment.
Variable eng : engine.

Lemma emit_done (e : event) (w w' : world) (u : unit) :
  emit e w = (Done u, w') -> adds [e] w w'.
Proof. intros H. inversion H; subst. repeat split; reflexivity. Qed.

Lemma yaml_section_done (A : Type) (sel : params_file -> option A)
  (key : string) (a : A) (w w' : world) :
  yaml_section env sel key w = (Done a, w') ->
  adds [OpenRead "params.yaml"] w w' /\
  exists doc, yaml_params env = Ok doc /\ sel doc = Some a.
Proof.
  unfold yaml_section. intros H. bind_inv H. bind_inv H.
  apply emit_done in Hstep. lift_inv Hstep0.
  destruct (sel a1) as [s|] eqn:Es; inversion H; subst.
  split; [exact Hstep|]. exists a1. split; assumption.
Qed.

Lemma set_seed_done (seed : Z) (w w' : world) (u : unit) :
  set_seed seed w = (Done u, w') -> adds [] w w'.
Proof.
  intros H. inversion H; subst. unfold adds. simpl.
  rewrite app_nil_r. repeat split; reflexivity.
Qed.

Lemma dataset_load_done (path : string) (ds : dataset) (w w' : world) :
  dataset_load env path w = (Done ds, w') ->
  adds [DatasetLoad path] w w' /\ dataset_at env path = Ok ds.
Proof.
  unfold dataset_load. intros H. bind_inv H.
  apply emit_done in Hstep. lift_inv H. split; assumption.
Qed.

Lemma json_load_done (path : string) (l : list string) (w w' : world) :
  json_load env path w = (Done l, w') ->
  adds [OpenRead path] w w' /\ labels_at env path = Ok l.
Proof.
  unfold json_load. intros H. bind_inv H.
  apply emit_done in Hstep. lift_inv H. split; assumption.
Qed.

Lemma instantiate_done (arch : Keras.sequential) (m : model) (w w' : world) :
  instantiate eng arch w = (Done m, w') ->
  adds [Initialized (m_variables m)] w w' /\
  m_arch m = arch /\ m_compiled m = None /\ m_history m = [].
Proof.
  unfold instantiate. intros H.
  bind_inv H. bind_inv H. bind_inv H. bind_inv H.
  inversion Hstep; subst; clear Hstep. lift_inv Hstep0.
  inversion Hstep1; subst; clear Hstep1.
  inversion Hstep2; subst; clear Hstep2.
  inversion H; subst; clear H. simpl.
  repeat split; reflexivity.
Qed.

Lemma fit_done (m m' : model) (ds_train ds_val : dataset) (epochs : Z)
  (w w' : world) :
  fit eng m ds_train epochs ds_val w = (Done m', w') ->
  exists logs evs,
    List.length logs = Z.to_nat epochs /\
    adds evs w w' /\
    epoch_ends evs = combine (seq 1 (Z.to_nat epochs)) logs /\
    m_history m' = history_of logs /\
    m_arch m' = m_arch m /\
    m_compiled m' = m_compiled m.
Proof.
  unfold fit. destruct (m_compiled m) as [c|] eqn:Ec; [|discriminate].
  intros H. apply fit_loop_done in H.
  destruct H as [logs [evs [Hl [Ht [He [Hs [Hf [Hh [Ha Hc]]]]]]]]].
  exists logs, evs. simpl in *.
  split; [exact Hl|]. split; [repeat split; assumption|].
  split; [exact He|].
  split; [rewrite Hh; apply (fold_record_logs logs [])|].
  split; [exact Ha|]. congruence.
Qed.

Lemma mkdir_done (path : string) (parents exist_ok : bool) (w w' : world)
  (u : unit) :
  mkdir env path parents exist_ok w = (Done u, w') ->
  adds [Mkdir path parents exist_ok] w w'.
Proof.
  unfold mkdir. intros H. bind_inv H. lift_inv Hstep.
  now apply emit_done in H.
Qed.

Lemma save_model_done (name : string) (m : model) (opt : bool)
  (objs : list (string * closure)) (w w' : world) (u : unit) :
  bentoml_keras_save_model env name m opt objs w = (Done u, w') ->
  let b := {| b_model := m; b_include_optimizer := opt;
              b_custom_objects := objs |} in
  trace w' = trace w ++ [StoreSave name b] /\
  bento_store w' = bento_store w ++ [(name, b)] /\
  files w' = files w.
Proof.
  unfold bentoml_keras_save_model. intros H. bind_inv H. lift_inv Hstep.
  inversion H; subst. repeat split; reflexivity.
Qed.

Lemma write_file_done (path : string) (c : file_content) (w w' : world)
  (u : unit) :
  write_file env path c w = (Done u, w') ->
  trace w' = trace w ++ [WriteFile path c] /\
  bento_store w' = bento_store w /\
  files w' = (path, c) :: files w.
Proof.
  unfold write_file. intros H. bind_inv H. lift_inv Hstep.
  inversion H; subst. repeat split; reflexivity.
Qed.

Lemma export_model_done (name : string) (v : tag_version) (path : string)
  (w w' : world) (u : unit) :
  bentoml_models_export_model env name v path w = (Done u, w') ->
  exists b,
    store_get name v (bento_store w) = Some b /\
    trace w' = trace w ++ [WriteFile path (BentoModelFile b)] /\
    bento_store w' = bento_store w /\
    files w' = (path, BentoModelFile b) :: files w.
Proof.
  unfold bentoml_models_export_model.
  destruct (store_get name v (bento_store w)) as [b|]; [|discriminate].
  intros H. exists b. split; [reflexivity|].
  now apply write_file_done in H.
Qed.
End Steps.

(** ** What a completed run of [main] did *)

Section CompletedRun.
Variable env : environment.
Variable eng : engine.
Variable argv : list string.

(** A run that returns normally had three arguments, found both
    sections of the parameter file, trained for the configured number of
    epochs and then packaged the model. *)
Lemma main_done (w w' : world) :
  main env eng argv w = (Done tt, w') ->
  exists doc pp tp arg2 labels m logs pre,
    yaml_params env = Ok doc /\
    section_prepare doc = Some pp /\
    section_train doc = Some tp /\
    List.length argv = 3%nat /\
    nth_error argv 2 = Some arg2 /\
    List.length logs = Z.to_nat (tp_epochs tp) /\
    epoch_ends pre = combine (seq 1 (Z.to_nat (tp_epochs tp))) logs /\
    m_history m = history_of logs /\
    get_model (image_shape (pp_image_size pp) (pp_grayscale pp))
      (tp_conv_size tp) (tp_dense_size tp) (tp_output_classes tp) =
      Ok (m_arch m) /\
    let model_folder := path_str env arg2 in
    let b := packaged m (pp_grayscale pp) (pp_image_size pp) labels in
    let export_path :=
      (model_folder ++ "/celestial_bodies_classifier_model.bentomodel")%string in
    let history_path := path_join env model_folder "history.npy" in
    trace w' =
      trace w ++ pre ++
      [ Mkdir model_folder true true;
        StoreSave model_name b;
        WriteFile export_path (BentoModelFile b);
        WriteFile history_path (NpyFile (m_history m));
        Print (nl ++ "Model saved at " ++ path_absolute env model_folder) ] /\
    bento_store w' = bento_store w ++ [(model_name, b)] /\
    files w' =
      (history_path, NpyFile (m_history m))
      :: (export_path, BentoModelFile b) :: files w.
Proof.
  unfold main. destruct (List.length argv =? 3)%nat eqn:Hargs; cbn [negb].
  2:{ intros H. bind_step H as u1 H1. bind_step H as u2 H2. discriminate H. }
  apply Nat.eqb_eq in Hargs. intros H.
  bind_step H as pp A1. apply yaml_section_done in A1.
  destruct A1 as [A1 [doc [Hdoc Hpp]]].
  bind_step H as tp A2. apply yaml_section_done in A2.
  destruct A2 as [A2 [doc' [Hdoc' Htp]]].
  assert (doc' = doc) by congruence. subst doc'.
  bind_step H as arg1 E1. lift_inv E1.
  bind_step H as arg2 E2. lift_inv E2.
  bind_step H as u3 A3. apply set_seed_done in A3.
  bind_step H as ds_train A4. apply dataset_load_done in A4. destruct A4 as [A4 _].
  bind_step H as ds_test A5. apply dataset_load_done in A5. destruct A5 as [A5 _].
  bind_step H as labels A6. apply json_load_done in A6. destruct A6 as [A6 _].
  bind_step H as arch B7. lift_inv B7.
  match goal with
  | HH : get_model _ _ _ _ = Ok _ |- _ => rename HH into Hgm
  end.
  bind_step H as m0 A7. apply instantiate_done in A7.
  destruct A7 as [A7 [Harch _]].
  bind_step H as u4 A8. apply emit_done in A8.
  bind_step H as m A9. apply fit_done in A9.
  destruct A9 as [logs [evs [Hl [A9 [He [Hh [Ha _]]]]]]].
  bind_step H as u5 A10. apply mkdir_done in A10.
  bind_step H as u6 A11. apply save_model_done in A11.
  destruct A11 as [T11 [S11 F11]].
  bind_step H as u7 A12. apply export_model_done in A12.
  destruct A12 as [b [Hb [T12 [S12 F12]]]].
  bind_step H as u8 A13. apply write_file_done in A13.
  destruct A13 as [T13 [S13 F13]].
  apply emit_done in H. destruct H as [T14 [S14 F14]].
  pose proof (adds_trans A1 (adds_trans A2 (adds_trans A3 (adds_trans A4
               (adds_trans A5 (adds_trans A6 (adds_trans A7
                 (adds_trans A8 A9)))))))) as [T [S F]].
  destruct A10 as [T10 [S10 F10]].
  cbn [store_get] in Hb. rewrite S11 in Hb.
  change "celestial_bodies_classifier_model"%string with model_name in Hb.
  rewrite store_latest_last in Hb. injection Hb as <-.
  exists doc, pp, tp, arg2, labels, m, logs.
  match type of T with _ = _ ++ ?l => exists l end.
  split; [exact Hdoc|]. split; [exact Hpp|]. split; [exact Htp|].
  split; [exact Hargs|].
  split; [unfold getitem in E0; destruct (nth_error argv 2); congruence|].
  split; [exact Hl|].
  split.
  { rewrite !epoch_ends_app. cbn [epoch_ends app]. exact He. }
  split; [exact Hh|].
  split; [rewrite Ha; cbn [compile m_arch]; rewrite Harch; exact Hgm|].
  cbv zeta. split; [|split].
  - rewrite T14, T13, T12, T11, T10, T. rewrite <- !app_assoc.
    reflexivity.
  - rewrite S14, S13, S12, S11, S10, S. reflexivity.
  - rewrite F14, F13, F12, F11, F10, F. reflexivity.
Qed.
End CompletedRun.

(** ** [exit] is called on the usage path only *)

Create HintDb never_exits.

Lemma never_exits_ret (A : Type) (a : A) : never_exits (ret a).
Proof. intros w s w' H. discriminate H. Qed.

Lemma never_exits_raise (A : Type) (e : exn) : never_exits (@raise A e).
Proof. intros w s w' H. discriminate H. Qed.

Lemma never_exits_lift (A : Type) (r : result A) : never_exits (lift r).
Proof. destruct r; intros w s w' H; discriminate H. Qed.

Lemma never_exits_emit (e : event) : never_exits (emit e).
Proof. intros w s w' H. discriminate H. Qed.

Lemma never_exits_get_rng : never_exits get_rng.
Proof. intros w s w' H. discriminate H. Qed.

Lemma never_exits_put_rng (r : rng_state) : never_exits (put_rng r).
Proof. intros w s w' H. discriminate H. Qed.

Lemma never_exits_bind (A B : Type) (m : M A) (k : A -> M B) :
  never_exits m -> (forall a, never_exits (k a)) -> never_exits (bind m k).
Proof.
  intros Hm Hk w s w'. unfold bind.
  destruct (m w) as [[a|s0|e] w1] eqn:E.
  - apply Hk.
  - exfalso. exact (Hm _ _ _ E).
  - discriminate.
Qed.

#[local] Hint Resolve never_exits_ret never_exits_raise never_exits_lift
  never_exits_emit never_exits_get_rng never_exits_put_rng : never_exits.

Ltac never_exits_steps :=
  repeat first
    [ solve [auto with never_exits]
    | apply never_exits_bind; [|intro] ].

Section NeverExits.
Variable env : environment.
Variable eng : engine.

Lemma never_exits_yaml_section (A : Type) (sel : params_file -> option A)
  (key : string) : never_exits (yaml_section env sel key).
Proof.
  unfold yaml_section. never_exits_steps.
  destruct (sel _); auto with never_exits.
Qed.

Lemma never_exits_set_seed (seed : Z) : never_exits (set_seed seed).
Proof. unfold set_seed. auto with never_exits. Qed.

Lemma never_exits_dataset_load (path : string) :
  never_exits (dataset_load env path).
Proof. unfold dataset_load. never_exits_steps. Qed.

Lemma never_exits_json_load (path : string) :
  never_exits (json_load env path).
Proof. unfold json_load. never_exits_steps. Qed.

Lemma never_exits_instantiate (arch : Keras.sequential) :
  never_exits (instantiate eng arch).
Proof. unfold instantiate. never_exits_steps. Qed.

Lemma never_exits_fit_epoch c ds_train ds_val epoch total m :
  never_exits (fit_epoch eng c ds_train ds_val epoch total m).
Proof. unfold fit_epoch. never_exits_steps. Qed.

Lemma never_exits_fit_loop c ds_train ds_val total n :
  forall epoch m, never_exits (fit_loop eng c ds_train ds_val n epoch total m).
Proof.
  induction n as [|n IH]; intros epoch m; simpl.
  - apply never_exits_ret.
  - apply never_exits_bind; [apply never_exits_fit_epoch|intro; apply IH].
Qed.

Lemma never_exits_fit m ds_train epochs ds_val :
  never_exits (fit eng m ds_train epochs ds_val).
Proof.
  unfold fit. destruct (m_compiled m).
  - apply never_exits_fit_loop.
  - apply never_exits_raise.
Qed.

Lemma never_exits_mkdir path parents exist_ok :
  never_exits (mkdir env path parents exist_ok).
Proof. unfold mkdir. never_exits_steps. Qed.

Lemma never_exits_save_model name m opt objs :
  never_exits (bentoml_keras_save_model env name m opt objs).
Proof.
  unfold bentoml_keras_save_model. never_exits_steps.
  intros w s w' H. discriminate H.
Qed.

Lemma never_exits_write_file path c : never_exits (write_file env path c).
Proof.
  unfold write_file. never_exits_steps.
  intros w s w' H. discriminate H.
Qed.

Lemma never_exits_export_model name v path :
  never_exits (bentoml_models_export_model env name v path).
Proof.
  intros w s w'. unfold bentoml_models_export_model.
  destruct (store_get name v (bento_store w)).
  - apply never_exits_write_file.
  - discriminate.
Qed.
End NeverExits.

#[local] Hint Resolve never_exits_yaml_section never_exits_set_seed
  never_exits_dataset_load never_exits_json_load never_exits_instantiate
  never_exits_fit never_exits_mkdir never_exits_save_model
  never_exits_write_file never_exits_export_model : never_exits.

(** With three arguments [main] never calls [exit]. *)
Lemma never_exits_main (env : environment) (eng : engine) (argv : list string) :
  List.length argv = 3%nat -> never_exits (main env eng argv).
Proof.
  intros Hargs. unfold main. rewrite Hargs. cbn [Nat.eqb negb].
  unfold summary, np_save, print.
  never_exits_steps.
Qed.

(* ================================================================= *)
(** ** The command line *)

(** C5.  With any number of command-line words other than three (the
    script name and two arguments), [main] prints the two usage lines and
    exits with status 1; it reads and writes no file, registers no model
    and leaves the generators alone.  With exactly three, [main] never
    calls [exit]: the run either returns, and the status is 0, or ends on
    an uncaught exception. *)
Theorem main_argument_count (env : environment) (eng : engine)
  (argv : list string) (w : world) :
  (List.length argv <> 3%nat ->
   main env eng argv w =
     (Exit 1, {| trace := trace w ++ usage_events; rng := rng w;
                 bento_store := bento_store w; files := files w |}) /\
   exit_status (fst (main env eng argv w)) = 1%Z /\
   existsb touches_filesystem usage_events = false) /\
  (List.length argv = 3%nat ->
   (fst (main env eng argv w) = Done tt /\
    exit_status (fst (main env eng argv w)) = 0%Z) \/
   (exists e, fst (main env eng argv w) = Uncaught e)).
Proof.
  split.
  - intros Hargs. apply Nat.eqb_neq in Hargs.
    assert (E : main env eng argv w =
                (Exit 1, {| trace := trace w ++ usage_events; rng := rng w;
                            bento_store := bento_store w; files := files w |})).
    { unfold main. rewrite Hargs. cbn [negb]. unfold bind, print, emit, exit.
      cbn [trace rng bento_store files]. rewrite <- app_assoc. reflexivity. }
    rewrite E. split; [reflexivity|]. split; reflexivity.
  - intros Hargs. pose proof (@never_exits_main env eng argv Hargs) as Hne.
    destruct (main env eng argv w) as [[[]|s|e] w'] eqn:E.
    + left. split; reflexivity.
    + exfalso. exact (Hne _ _ _ E).
    + right. exists e. reflexivity.
Qed.

(** The statement without arguments, with three arguments (both end on
    the usage text), and with two on the sample instance. *)
Lemma main_argument_count_witness :
  fst (main Sample.env Sample.eng ["train.py"]%string Sample.world0) = Exit 1 /\
  fst (main Sample.env Sample.eng ["train.py"; "a"; "b"; "c"]%string
         Sample.world0) = Exit 1 /\
  exit_status (fst (main Sample.env Sample.eng Sample.argv Sample.world0)) = 0%Z.
Proof.
  split; [|split].
  - destruct (main_argument_count Sample.env Sample.eng ["train.py"]%string
                Sample.world0) as [H _].
    destruct H as [H _]; [simpl; lia|]. rewrite H. reflexivity.
  - destruct (main_argument_count Sample.env Sample.eng
                ["train.py"; "a"; "b"; "c"]%string Sample.world0) as [H _].
    destruct H as [H _]; [simpl; lia|]. rewrite H. reflexivity.
  - destruct (main_argument_count Sample.env Sample.eng Sample.argv
                Sample.world0) as [_ H].
    destruct H as [[_ H]|[e H]]; [reflexivity|exact H|].
    vm_compute in H. discriminate H.
Defined.

(* ================================================================= *)
(** ** Packaging *)



(* ================================================================= *)
(** ** The training history *)

Lemma history_column_history_of (logs : list epoch_logs) :
  history_column "loss" (history_of logs) = map loss logs /\
  history_column "sparse_categorical_accuracy" (history_of logs) =
    map sparse_categorical_accuracy logs /\
  history_column "val_loss" (history_of logs) = map val_loss logs /\
  history_column "val_sparse_categorical_accuracy" (history_of logs) =
    map val_sparse_categorical_accuracy logs.
Proof. destruct logs; repeat split; reflexivity. Qed.

(** C7.  In a run that returns normally with [epochs = N] configured, the
    dictionary saved to [history.npy] holds, under each of its four keys, a
    list of [N] values; read as per-epoch records it has exactly [N]
    records, numbered 1, 2, ..., [N] in this order, and the record of an
    epoch carries the training and validation loss and accuracy the engine
    produced at the end of that epoch, whatever they are. *)
Theorem main_history (env : environment) (eng : engine) (argv : list string)
  (w w' : world) :
  main env eng argv w = (Done tt, w') ->
  exists doc tp arg2 h rest new,
    yaml_params env = Ok doc /\
    section_train doc = Some tp /\
    nth_error argv 2 = Some arg2 /\
    files w' =
      (path_join env (path_str env arg2) "history.npy", NpyFile h) :: rest /\
    trace w' = trace w ++ new /\
    let N := Z.to_nat (tp_epochs tp) in
    List.length (history_records h) = N /\
    map er_epoch (history_records h) = seq 1 N /\
    history_records h =
      map (fun p => record_of (fst p) (snd p)) (epoch_ends new) /\
    Forall (fun k => List.length (history_column k h) = N)
      [ "loss"; "sparse_categorical_accuracy"; "val_loss";
        "val_sparse_categorical_accuracy" ]%string /\
    ((0 < tp_epochs tp)%Z ->
     Z.of_nat (List.length (history_records h)) = tp_epochs tp).
Proof.
  intros H. apply main_done in H.
  destruct H as [doc [pp [tp [arg2 [labels [m [logs [pre H]]]]]]]].
  destruct H as [Hdoc [_ [Htp [_ [Harg [Hl [He [Hh [_ [Ht [_ Hf]]]]]]]]]]].
  cbv zeta in Ht, Hf.
  exists doc, tp, arg2, (m_history m). eexists. eexists.
  split; [exact Hdoc|]. split; [exact Htp|]. split; [exact Harg|].
  split; [exact Hf|]. split; [exact Ht|]. cbv zeta.
  assert (Hrec : history_records (m_history m) =
                 map (fun p => record_of (fst p) (snd p))
                   (combine (seq 1 (Z.to_nat (tp_epochs tp))) logs)).
  { rewrite Hh, history_records_history_of, Hl. reflexivity. }
  assert (Hlen : List.length (history_records (m_history m)) =
                 Z.to_nat (tp_epochs tp)).
  { rewrite Hrec, length_map, length_combine, length_seq, Hl.
    apply Nat.min_id. }
  split; [exact Hlen|].
  split.
  { rewrite Hrec, map_map. cbn [record_of er_epoch].
    change (map (fun x : nat * epoch_logs => fst x)
              (combine (seq 1 (Z.to_nat (tp_epochs tp))) logs))
      with (map fst (combine (seq 1 (Z.to_nat (tp_epochs tp))) logs)).
    rewrite keys_combine, Hl. apply firstn_all2. rewrite length_seq. lia. }
  split.
  { rewrite Hrec, epoch_ends_app, He. cbn [epoch_ends].
    now rewrite app_nil_r. }
  split.
  { rewrite Hh.
    destruct (history_column_history_of logs) as [C1 [C2 [C3 C4]]].
    repeat constructor; rewrite ?C1, ?C2, ?C3, ?C4, length_map; exact Hl. }
  intros Hpos. rewrite Hlen. lia.
Qed.

(** The statement on the sample instance, whose validation loss is NaN in
    both of its two epochs. *)
Lemma main_history_witness :
  exists h rest,
    files (snd (main Sample.env Sample.eng Sample.argv Sample.world0)) =
      ("out/history.npy"%string, NpyFile h) :: rest /\
    map er_epoch (history_records h) = [1; 2]%nat.
Proof.
  assert (R : main Sample.env Sample.eng Sample.argv Sample.world0 =
              (Done tt, snd (main Sample.env Sample.eng Sample.argv Sample.world0)))
    by (vm_compute; reflexivity).
  destruct (@main_history _ _ _ _ _ R) as [doc [tp [arg2 [h [rest [new H]]]]]].
  destruct H as [Hdoc [Htp [Harg [Hf [_ [_ [He _]]]]]]].
  injection Harg as <-. injection Hdoc as <-. injection Htp as <-.
  exists h, rest. split; [exact Hf|exact He].
Defined.

(* ================================================================= *)
(** ** Reproducibility *)

Section TwoRuns.
Variable env : environment.
Variable eng : engine.
Variables t1 t2 : list event.

Lemma holds_events (l : level) (w1 w2 : world) :
  holds t1 t2 l w1 w2 -> holds t1 t2 Events w1 w2.
Proof. intros [H _]. split; [exact H|exact I]. Qed.

Lemma respects_ret (l : level) (A : Type) (a : A) : respects t1 t2 l l (ret a).
Proof. intros w1 w2 H. split; [reflexivity|exact H]. Qed.

Lemma respects_raise (l l' : level) (A : Type) (e : exn) :
  respects t1 t2 l l' (@raise A e).
Proof.
  intros w1 w2 H. split; [reflexivity|]. exact (holds_events H).
Qed.

Lemma respects_exit (l l' : level) (A : Type) (s : Z) :
  respects t1 t2 l l' (@exit A s).
Proof.
  intros w1 w2 H. split; [reflexivity|]. exact (holds_events H).
Qed.

Lemma respects_lift (l : level) (A : Type) (r : result A) :
  respects t1 t2 l l (lift r).
Proof.
  destruct r; simpl; [apply respects_ret|apply respects_raise].
Qed.

Lemma respects_bind (l l' l'' : level) (A B : Type) (m : M A) (k : A -> M B) :
  respects t1 t2 l l' m -> (forall a, respects t1 t2 l' l'' (k a)) ->
  respects t1 t2 l l'' (bind m k).
Proof.
  intros Hm Hk w1 w2 H. specialize (Hm w1 w2 H).
  unfold agree, bind in *.
  destruct (m w1) as [[a1|s1|e1] w1'], (m w2) as [[a2|s2|e2] w2'];
    simpl in Hm; try contradiction.
  - destruct Hm as [<- Hm]. exact (Hk a1 w1' w2' Hm).
  - exact Hm.
  - exact Hm.
Qed.

(** A step that appends the same event in both runs and leaves the
    generators and the store alone keeps every level. *)
Lemma respects_emit (l : level) (e : event) : respects t1 t2 l l (emit e).
Proof.
  intros w1 w2 [[evs [T1 T2]] H]. split; [reflexivity|].
  split.
  - exists (evs ++ [e]). simpl. rewrite T1, T2, !app_assoc.
    split; reflexivity.
  - destruct l; exact H.
Qed.

Lemma respects_get_rng : respects t1 t2 Seeded Seeded get_rng.
Proof.
  intros w1 w2 H. split; [exact (proj2 H)|exact H].
Qed.

(** Setting the generators to a given state makes the runs agree on
    them. *)
Lemma respects_put_rng (l : level) (r : rng_state) :
  respects t1 t2 l Seeded (put_rng r).
Proof.
  intros w1 w2 [T _]. split; [reflexivity|].
  split; [exact T|reflexivity].
Qed.

Lemma respects_yaml_section (l : level) (A : Type)
  (sel : params_file -> option A) (key : string) :
  respects t1 t2 l l (yaml_section env sel key).
Proof.
  unfold yaml_section.
  eapply respects_bind; [apply respects_emit|intros _].
  eapply respects_bind; [apply respects_lift|intros doc].
  destruct (sel doc); [apply respects_ret|apply respects_raise].
Qed.

Lemma respects_set_seed (seed : Z) : respects t1 t2 Events Seeded (set_seed seed).
Proof. apply respects_put_rng. Qed.

Lemma respects_dataset_load (l : level) (path : string) :
  respects t1 t2 l l (dataset_load env path).
Proof.
  unfold dataset_load.
  eapply respects_bind; [apply respects_emit|intros _; apply respects_lift].
Qed.

Lemma respects_json_load (l : level) (path : string) :
  respects t1 t2 l l (json_load env path).
Proof.
  unfold json_load.
  eapply respects_bind; [apply respects_emit|intros _; apply respects_lift].
Qed.

Lemma respects_instantiate (arch : Keras.sequential) :
  respects t1 t2 Seeded Seeded (instantiate eng arch).
Proof.
  unfold instantiate.
  eapply respects_bind; [apply respects_get_rng|intros r].
  eapply respects_bind; [apply respects_lift|intros vr].
  eapply respects_bind; [apply respects_put_rng|intros _].
  eapply respects_bind; [apply respects_emit|intros _].
  apply respects_ret.
Qed.

Lemma respects_fit_epoch c ds_train ds_val epoch total m :
  respects t1 t2 Seeded Seeded (fit_epoch eng c ds_train ds_val epoch total m).
Proof.
  unfold fit_epoch.
  eapply respects_bind; [apply respects_emit|intros _].
  eapply respects_bind; [apply respects_get_rng|intros r].
  eapply respects_bind; [apply respects_lift|intros br].
  eapply respects_bind; [apply respects_put_rng|intros _].
  eapply respects_bind; [apply respects_emit|intros _].
  eapply respects_bind; [apply respects_lift|intros tr].
  eapply respects_bind; [apply respects_get_rng|intros r'].
  eapply respects_bind; [apply respects_lift|intros vb].
  eapply respects_bind; [apply respects_put_rng|intros _].
  eapply respects_bind; [apply respects_lift|intros va].
  eapply respects_bind; [apply respects_emit|intros _].
  apply respects_ret.
Qed.

Lemma respects_fit_loop c ds_train ds_val total n :
  forall epoch m,
    respects t1 t2 Seeded Seeded (fit_loop eng c ds_train ds_val n epoch total m).
Proof.
  induction n as [|n IH]; intros epoch m; simpl.
  - apply respects_ret.
  - eapply respects_bind; [apply respects_fit_epoch|intros m'; apply IH].
Qed.

Lemma respects_fit m ds_train epochs ds_val :
  respects t1 t2 Seeded Seeded (fit eng m ds_train epochs ds_val).
Proof.
  unfold fit. destruct (m_compiled m).
  - apply respects_fit_loop.
  - apply respects_raise.
Qed.

Lemma respects_mkdir (l : level) path parents exist_ok :
  respects t1 t2 l l (mkdir env path parents exist_ok).
Proof.
  unfold mkdir.
  eapply respects_bind; [apply respects_lift|intros _; apply respects_emit].
Qed.

(** Registering the same bundle under the model's name makes the runs
    agree on the newest version, whatever their stores held before. *)
Lemma respects_save_model m opt objs :
  respects t1 t2 Seeded Registered
    (bentoml_keras_save_model env model_name m opt objs).
Proof.
  unfold bentoml_keras_save_model.
  eapply respects_bind; [apply respects_lift|intros _].
  intros w1 w2 [[evs [T1 T2]] R]. split; [reflexivity|].
  split.
  - eexists (evs ++ [_]). simpl. rewrite T1, T2, !app_assoc.
    split; reflexivity.
  - simpl. split; [exact R|]. now rewrite !store_latest_last.
Qed.

Lemma respects_write_file (l : level) path c :
  respects t1 t2 l l (write_file env path c).
Proof.
  unfold write_file.
  eapply respects_bind; [apply respects_lift|intros _].
  intros w1 w2 [[evs [T1 T2]] R]. split; [reflexivity|].
  split.
  - exists (evs ++ [WriteFile path c]). simpl. rewrite T1, T2, !app_assoc.
    split; reflexivity.
  - destruct l; exact R.
Qed.

(** Exporting the newest version writes the same file in both runs. *)
Lemma respects_export_model path :
  respects t1 t2 Registered Registered
    (bentoml_models_export_model env model_name Latest path).
Proof.
  intros w1 w2 H. unfold bentoml_models_export_model. simpl store_get.
  destruct H as [T [R S]]. rewrite S.
  destruct (store_latest model_name (bento_store w2)) as [b|] eqn:E.
  - apply respects_write_file. split; [exact T|]. split; congruence.
  - split; [reflexivity|]. split; [exact T|exact I].
Qed.

Lemma respects_weaken (l l' : level) (A : Type) (m : M A) :
  respects t1 t2 l l' m -> respects t1 t2 l Events m.
Proof.
  intros Hm w1 w2 H. specialize (Hm w1 w2 H). unfold agree in *.
  destruct (fst (m w1)), (fst (m w2)); try exact Hm.
  destruct Hm as [E Hm]. split; [exact E|exact (holds_events Hm)].
Qed.

Lemma respects_forget_store (A : Type) (m : M A) (l' : level) :
  respects t1 t2 Seeded l' m -> respects t1 t2 Registered l' m.
Proof.
  intros Hm w1 w2 [T [R _]]. apply Hm. split; assumption.
Qed.

Variable argv : list string.

Lemma respects_main : respects t1 t2 Events Events (main env eng argv).
Proof.
  unfold main. destruct (negb (List.length argv =? 3)%nat).
  - unfold print.
    eapply respects_bind; [apply respects_emit|intros _].
    eapply respects_bind; [apply respects_emit|intros _].
    apply respects_exit.
  - apply respects_weaken with (l' := Seeded).
    eapply respects_bind; [apply respects_yaml_section|intros pp].
    eapply respects_bind; [apply respects_yaml_section|intros tp].
    eapply respects_bind; [apply respects_lift|intros arg1].
    eapply respects_bind; [apply respects_lift|intros arg2].
    eapply respects_bind; [apply respects_set_seed|intros _].
    eapply respects_bind; [apply respects_dataset_load|intros ds_train].
    eapply respects_bind; [apply respects_dataset_load|intros ds_test].
    eapply respects_bind; [apply respects_json_load|intros labels].
    eapply respects_bind; [apply respects_lift|intros arch].
    eapply respects_bind; [apply respects_instantiate|intros m0].
    eapply respects_bind; [apply respects_emit|intros _].
    eapply respects_bind; [apply respects_fit|intros m].
    eapply respects_bind; [apply respects_mkdir|intros _].
    eapply respects_bind; [apply respects_save_model|intros _].
    eapply respects_bind; [apply respects_export_model|intros _].
    apply respects_forget_store.
    eapply respects_bind; [apply respects_write_file|intros _].
    apply respects_emit.
Qed.
End TwoRuns.

(** C8.  Two runs of [main] with the same parameter file, dataset folder,
    engine and command line do the same thing, whatever state the
    generators, the model store and the file system were in when each run
    began: both end the same way and go through the same events -- in
    particular the same initial variables ([Initialized]), the same batches
    in the same order ([Presented]), the same logs at the end of every
    epoch ([EpochEnd]) and the same saved history.  This rests on [main]
    calling [set_seed] before it instantiates the model and before [fit]
    iterates the datasets: from then on the generators are in the state
    the seed determines. *)
Theorem main_reproducible (env : environment) (eng : engine)
  (argv : list string) (w1 w2 : world) :
  exists evs,
    fst (main env eng argv w1) = fst (main env eng argv w2) /\
    trace (snd (main env eng argv w1)) = trace w1 ++ evs /\
    trace (snd (main env eng argv w2)) = trace w2 ++ evs.
Proof.
  assert (H0 : holds (trace w1) (trace w2) Events w1 w2).
  { split; [|exact I]. exists []. rewrite !app_nil_r. split; reflexivity. }
  pose proof (@respects_main env eng (trace w1) (trace w2) argv w1 w2 H0) as H.
  unfold agree in H.
  destruct (main env eng argv w1) as [o1 w1'], (main env eng argv w2) as [o2 w2'].
  simpl in *.
  destruct o1 as [[]|s1|e1], o2 as [[]|s2|e2]; try contradiction;
    destruct H as [E [[evs [T1 T2]] _]]; exists evs;
    (split; [congruence|split; assumption]).
Qed.

(* ================================================================= *)
(** * Further properties of the closures, the builder and [main] *)

(** ** More on dictionaries *)

Lemma dict_get_set_same (V : Type) (k : string) (v : V) (d : dict V) :
  dict_get k (dict_set k v d) = Some v.
Proof.
  induction d as [|[k' v'] d IH]; simpl.
  - now rewrite String.eqb_refl.
  - destruct (String.eqb k' k) eqn:E; simpl; rewrite E; [reflexivity|exact IH].
Qed.

Lemma dict_get_set_other (V : Type) (k k0 : string) (v : V) (d : dict V) :
  k0 <> k -> dict_get k (dict_set k0 v d) = dict_get k d.
Proof.
  intros Hne. induction d as [|[k' v'] d IH]; simpl.
  - destruct (String.eqb k0 k) eqn:E; [|reflexivity].
    apply String.eqb_eq in E. contradiction.
  - destruct (String.eqb k' k0) eqn:E0; simpl.
    + apply String.eqb_eq in E0. subst k'.
      destruct (String.eqb k0 k) eqn:E; [|reflexivity].
      apply String.eqb_eq in E. contradiction.
    + destruct (String.eqb k' k); [reflexivity|exact IH].
Qed.

Lemma dict_assign_cons (V : Type) (k : string) (v : V)
  (kvs : list (string * V)) (acc : dict V) :
  dict_assign ((k, v) :: kvs) acc = dict_assign kvs (dict_set k v acc).
Proof. reflexivity. Qed.

Lemma dict_get_assign_absent (V : Type) (k : string) (kvs : list (string * V)) :
  forall acc,
    ~ In k (map fst kvs) -> dict_get k (dict_assign kvs acc) = dict_get k acc.
Proof.
  induction kvs as [|[k0 v0] kvs IH]; intros acc Hk.
  - reflexivity.
  - rewrite dict_assign_cons, IH.
    + apply dict_get_set_other. intro E. apply Hk. left. exact E.
    + intro Hin. apply Hk. right. exact Hin.
Qed.

(** Assigning pairs in order, the value found under a key is the one of
    the last pair with that key. *)
Lemma dict_get_assign_last (V : Type) (k : string) (v : V)
  (kvs : list (string * V)) :
  forall i acc,
    nth_error kvs i = Some (k, v) ->
    (forall j v', (i < j)%nat -> nth_error kvs j <> Some (k, v')) ->
    dict_get k (dict_assign kvs acc) = Some v.
Proof.
  induction kvs as [|[k0 v0] kvs IH]; intros i acc Hi Hlast.
  - destruct i; discriminate.
  - rewrite dict_assign_cons. destruct i as [|i].
    + injection Hi as -> ->.
      rewrite dict_get_assign_absent.
      * apply dict_get_set_same.
      * intro Hin. apply in_map_iff in Hin. destruct Hin as [[k' v'] [Hk Hin]].
        simpl in Hk. subst k'. apply In_nth_error in Hin. destruct Hin as [j Hj].
        apply (Hlast (S j) v'); [lia|exact Hj].
    + apply (IH i); [exact Hi|].
      intros j v' Hj. apply (Hlast (S j) v'). lia.
Qed.

Lemma keys_dict_set_NoDup (V : Type) (k : string) (v : V) (d : dict V) :
  NoDup (keys d) -> NoDup (keys (dict_set k v d)).
Proof.
  induction d as [|[k' v'] d IH]; intros Hnd; simpl.
  - constructor; [intros []|constructor].
  - inversion Hnd as [|? ? Hk' Hd]; subst.
    destruct (String.eqb k' k) eqn:E; simpl.
    + constructor; assumption.
    + constructor; [|apply IH; exact Hd].
      intro Hin. apply keys_dict_set in Hin. destruct Hin as [->|Hin].
      * rewrite String.eqb_refl in E. discriminate.
      * exact (Hk' Hin).
Qed.

Lemma keys_dict_assign_NoDup (V : Type) (kvs : list (string * V)) :
  forall acc, NoDup (keys acc) -> NoDup (keys (dict_assign kvs acc)).
Proof.
  induction kvs as [|[k v] kvs IH]; intros acc Hnd.
  - exact Hnd.
  - rewrite dict_assign_cons. apply IH. now apply keys_dict_set_NoDup.
Qed.

Lemma length_dict_set (V : Type) (k : string) (v : V) (d : dict V) :
  (List.length (dict_set k v d) <= S (List.length d))%nat.
Proof.
  induction d as [|[k' v'] d IH]; simpl; [lia|].
  destruct (String.eqb k' k); simpl; lia.
Qed.

Lemma length_dict_assign (V : Type) (kvs : list (string * V)) :
  forall acc,
    (List.length (dict_assign kvs acc) <= List.length acc + List.length kvs)%nat.
Proof.
  induction kvs as [|[k v] kvs IH]; intros acc; [simpl; lia|].
  rewrite dict_assign_cons.
  pose proof (IH (dict_set k v acc)). pose proof (length_dict_set k v acc).
  simpl List.length. lia.
Qed.

Lemma values_dict_set (V : Type) (k : string) (v : V) (d : dict V) :
  forall x, In x (values (dict_set k v d)) -> x = v \/ In x (values d).
Proof.
  induction d as [|[k' v'] d IH]; intros x; simpl.
  - intuition.
  - destruct (String.eqb k' k); simpl.
    + intuition.
    + intros [E|Hin]; [right; left; exact E|].
      destruct (IH x Hin); intuition.
Qed.

Lemma values_dict_assign (V : Type) (kvs : list (string * V)) :
  forall acc x,
    In x (values (dict_assign kvs acc)) ->
    In x (values acc) \/ In x (map snd kvs).
Proof.
  induction kvs as [|[k v] kvs IH]; intros acc x.
  - simpl. intuition.
  - rewrite dict_assign_cons. intros Hin.
    destruct (IH _ _ Hin) as [H|H]; [|right; right; exact H].
    destruct (values_dict_set _ _ _ _ H) as [->|H']; [right; left; reflexivity|].
    left. exact H'.
Qed.

(** ** More on [tf.nn.softmax] and [tf.argmax] *)

Lemma nth_softmax_row (r : list R) (i : nat) :
  (i < List.length r)%nat ->
  nth i (TF.softmax_row r) 0%R =
  (exp (nth i r 0) / TF.reduce_sum (map exp r))%R.
Proof.
  intros Hi. unfold TF.softmax_row.
  set (s := TF.reduce_sum (map exp r)).
  set (f := fun v : R => (v / s)%R).
  rewrite nth_indep with (d' := f (exp 0))
    by (rewrite !length_map; exact Hi).
  rewrite map_nth. unfold f.
  rewrite map_nth. reflexivity.
Qed.

(** The softmax keeps the order of the logits. *)
Lemma softmax_row_monotone (r : list R) (i j : nat) :
  (i < List.length r)%nat -> (j < List.length r)%nat ->
  (nth j r 0 <= nth i r 0)%R ->
  (nth j (TF.softmax_row r) 0 <= nth i (TF.softmax_row r) 0)%R.
Proof.
  intros Hi Hj Hle. rewrite !nth_softmax_row by assumption.
  assert (Hr : r <> []) by (intro E; rewrite E in Hi; simpl in Hi; lia).
  pose proof (reduce_sum_exp_pos Hr) as Hs.
  assert (He : (exp (nth j r 0) <= exp (nth i r 0))%R).
  { destruct Hle as [Hlt|Heq].
    - left. now apply exp_increasing.
    - right. now rewrite Heq. }
  unfold Rdiv. apply Rmult_le_compat_r; [|exact He].
  left. now apply Rinv_0_lt_compat.
Qed.

(** ** More on [postprocess] *)

(** What a normal return of [postprocess] on a one-row batch tells. *)
Lemma postprocess_ok_inv (labels : list string) (row : list R)
  (r : prediction_result) :
  postprocess labels [row] = Ok r ->
  row <> [] /\
  (List.length row <= List.length labels)%nat /\
  (exists i, TF.argmax_row row = Ok i /\
             nth_error labels i = Some (prediction r)) /\
  probabilities r =
    dict_assign (combine (firstn (List.length row) labels) (TF.softmax_row row)) [].
Proof.
  intros H.
  assert (Hne : row <> []).
  { intro E. subst row. rewrite postprocess_empty_row in H. discriminate. }
  assert (Hlen : (List.length row <= List.length labels)%nat).
  { destruct (Nat.le_gt_cases (List.length row) (List.length labels))
      as [Hle|Hgt]; [exact Hle|].
    rewrite (postprocess_overflow labels row Hgt) in H. discriminate. }
  destruct (@postprocess_accepts labels row Hne Hlen) as [i [pred [Hi [Hp E]]]].
  rewrite E in H. injection H as <-. simpl.
  split; [exact Hne|]. split; [exact Hlen|].
  split; [exists i; split; assumption|reflexivity].
Qed.

Lemma mapM_argmax_nonempty (rest : list (list R)) :
  Forall (fun r => r <> []) rest ->
  exists l, TF.mapM TF.argmax_row rest = Ok l.
Proof.
  induction 1 as [|r rest Hr _ IH]; simpl.
  - exists []. reflexivity.
  - destruct r as [|y t]; [congruence|]. simpl.
    destruct IH as [l ->]. eexists. reflexivity.
Qed.

Lemma nth_error_combine (A B : Type) (l : list A) (l' : list B) (i : nat)
  (a : A) (d : B) :
  nth_error l i = Some a -> (i < List.length l')%nat ->
  nth_error (combine l l') i = Some (a, nth i l' d).
Proof.
  revert l' i. induction l as [|x l IH]; intros [|y l'] [|i] Ha Hi;
    simpl in *; try discriminate; try lia.
  - now injection Ha as ->.
  - apply IH; [exact Ha|lia].
Qed.

Lemma nth_error_combine_inv (A B : Type) (l : list A) (l' : list B) (i : nat)
  (a : A) (b : B) :
  nth_error (combine l l') i = Some (a, b) -> nth_error l i = Some a.
Proof.
  revert l' i. induction l as [|x l IH]; intros [|y l'] [|i] H;
    simpl in *; try discriminate.
  - now injection H as -> _.
  - exact (IH _ _ H).
Qed.

Lemma nth_error_firstn (A : Type) (l : list A) (n i : nat) :
  (i < n)%nat -> nth_error (firstn n l) i = nth_error l i.
Proof.
  revert n i. induction l as [|x l IH]; intros [|n] [|i] H; simpl;
    try reflexivity; try lia.
  apply IH. lia.
Qed.

(** X1.  [postprocess] reads the first row of the batch only: on an empty
    batch it raises [IndexError], and on a batch of rows of one length it
    returns what it returns on the first row alone -- the other rows get
    no prediction. *)
Theorem postprocess_reads_first_row (labels : list string) (row : list R)
  (rest : list (list R)) :
  postprocess labels [] = Raise IndexError /\
  (Forall (fun r => List.length r = List.length row) rest ->
   postprocess labels (row :: rest) = postprocess labels [row]).
Proof.
  split; [reflexivity|]. intros Hrect.
  destruct row as [|y t].
  - reflexivity.
  - assert (Hne : Forall (fun r : list R => r <> []) rest).
    { eapply Forall_impl; [|exact Hrect]. intros r Hr E. subst r. discriminate. }
    destruct (mapM_argmax_nonempty Hne) as [l Hl].
    rewrite postprocess_row.
    unfold postprocess, TF.argmax, TF.softmax, getitem.
    cbn [TF.mapM TF.argmax_row]. rewrite Hl.
    cbn [rbind nth_error map].
    destruct (nth_error labels (TF.argmax_from 0 y 1 t)); reflexivity.
Qed.

Lemma postprocess_reads_first_row_witness :
  postprocess ["star"; "planet"]%string [[1; 0]; [0; 5]]%R =
  postprocess ["star"; "planet"]%string [[1; 0]]%R.
Proof.
  destruct (postprocess_reads_first_row ["star"; "planet"]%string
              [1; 0]%R [[0; 5]%R]) as [_ H].
  apply H. repeat constructor.
Defined.

(** X2.  When [postprocess] returns, its prediction is the label at the
    index of the largest logit of the row; among equal largest logits, the
    one with the smallest index. *)
Theorem postprocess_prediction_first_maximum (labels : list string)
  (row : list R) (r : prediction_result) :
  postprocess labels [row] = Ok r ->
  exists i,
    (i < List.length row)%nat /\
    nth_error labels i = Some (prediction r) /\
    (forall j, (j < List.length row)%nat -> (nth j row 0 <= nth i row 0)%R) /\
    (forall j, (j < i)%nat -> (nth j row 0 < nth i row 0)%R).
Proof.
  intros H. apply postprocess_ok_inv in H.
  destruct H as [Hne [_ [[i [Hi Hp]] _]]].
  destruct row as [|y t]; [congruence|].
  destruct (argmax_row_correct y t) as [i' [Hi' [Hlt [Hmax Hfirst]]]].
  rewrite Hi in Hi'. injection Hi' as <-.
  exists i. split; [exact Hlt|]. split; [exact Hp|].
  split; [exact Hmax|exact Hfirst].
Qed.

Lemma postprocess_prediction_first_maximum_witness :
  exists r i,
    postprocess ["star"; "planet"; "moon"]%string [[1; 3; 3]%R] = Ok r /\
    nth_error ["star"; "planet"; "moon"]%string i = Some (prediction r) /\
    (forall j, (j < i)%nat -> (nth j [1; 3; 3] 0 < nth i [1; 3; 3] 0)%R).
Proof.
  destruct (@postprocess_accepts ["star"; "planet"; "moon"]%string [1; 3; 3]%R)
    as [i0 [pred [_ [_ H]]]]; [discriminate|simpl; lia|].
  destruct (postprocess_prediction_first_maximum _ _ H)
    as [i [_ [Hp [_ Hf]]]].
  eexists. exists i. split; [exact H|]. split; [exact Hp|exact Hf].
Defined.

(** The probability stored under the label at index [i], when no later
    index within the row carries the same label. *)
Lemma probabilities_lookup (labels : list string) (row : list R) (i : nat)
  (l : string) :
  (i < List.length row)%nat ->
  nth_error labels i = Some l ->
  (forall j, (i < j < List.length row)%nat -> nth_error labels j <> Some l) ->
  dict_get l
    (dict_assign (combine (firstn (List.length row) labels) (TF.softmax_row row)) []) =
  Some (nth i (TF.softmax_row row) 0%R).
Proof.
  intros Hi Hl Hlast.
  apply dict_get_assign_last with (i := i).
  - apply nth_error_combine.
    + rewrite nth_error_firstn by exact Hi. exact Hl.
    + rewrite softmax_row_length. exact Hi.
  - intros j v' Hj Hn.
    assert (Hjlen : (j < List.length row)%nat).
    { assert (Hsome : nth_error
                (combine (firstn (List.length row) labels) (TF.softmax_row row)) j
              <> None) by congruence.
      apply nth_error_Some in Hsome.
      rewrite length_combine, softmax_row_length in Hsome. lia. }
    apply nth_error_combine_inv in Hn.
    rewrite nth_error_firstn in Hn by exact Hjlen.
    apply (Hlast j); [lia|exact Hn].
Qed.

(** X4.  When the labels the row covers are pairwise distinct, the
    predicted label is a key of [probabilities] and no label has a larger
    probability. *)
Theorem postprocess_prediction_most_probable (labels : list string)
  (row : list R) (r : prediction_result) :
  NoDup (firstn (List.length row) labels) ->
  postprocess labels [row] = Ok r ->
  exists p,
    dict_get (prediction r) (probabilities r) = Some p /\
    Forall (fun v => (v <= p)%R) (values (probabilities r)).
Proof.
  intros Hnd H. apply postprocess_ok_inv in H.
  destruct H as [Hne [Hlen [[i [Hi Hp]] Hprobs]]].
  destruct row as [|y t]; [congruence|].
  destruct (argmax_row_correct y t) as [i' [Hi' [Hlt [Hmax _]]]].
  rewrite Hi in Hi'. injection Hi' as <-.
  set (row := y :: t) in *.
  exists (nth i (TF.softmax_row row) 0%R). rewrite Hprobs. split.
  - apply probabilities_lookup; [exact Hlt|exact Hp|].
    intros j [Hij Hj] Hn.
    assert (E : i = j).
    { apply (proj1 (NoDup_nth_error _) Hnd).
      - rewrite length_firstn. lia.
      - rewrite !nth_error_firstn by lia. congruence. }
    lia.
  - apply Forall_forall. intros v Hv.
    apply values_dict_assign in Hv. destruct Hv as [[]|Hv].
    apply in_map_iff in Hv. destruct Hv as [[k v'] [E Hin]]. simpl in E. subst v'.
    apply in_combine_r in Hin.
    apply (In_nth _ _ 0%R) in Hin. destruct Hin as [j [Hj <-]].
    rewrite softmax_row_length in Hj.
    apply softmax_row_monotone; [exact Hlt|exact Hj|]. apply Hmax. exact Hj.
Qed.

Lemma postprocess_prediction_most_probable_witness :
  exists r p,
    postprocess ["star"; "planet"; "moon"]%string [[1; 3; 2]%R] = Ok r /\
    dict_get (prediction r) (probabilities r) = Some p /\
    Forall (fun v => (v <= p)%R) (values (probabilities r)).
Proof.
  destruct (@postprocess_accepts ["star"; "planet"; "moon"]%string [1; 3; 2]%R)
    as [i0 [pred [_ [_ H]]]]; [discriminate|simpl; lia|].
  assert (Hnd : NoDup (firstn (List.length [1; 3; 2]%R)
                         ["star"; "planet"; "moon"]%string))
    by (repeat constructor; simpl; intuition discriminate).
  destruct (@postprocess_prediction_most_probable _ _ _ Hnd H) as [p [Hp Hv]].
  eexists. exists p. split; [exact H|]. split; [exact Hp|exact Hv].
Defined.

(** X5.  When a label occurs at several indices the row covers, the
    probability [postprocess] returns under that label is the softmax
    probability of the last of these indices; the earlier ones are
    overwritten. *)
Theorem postprocess_last_occurrence_wins (labels : list string)
  (row : list R) (r : prediction_result) (i : nat) (l : string) :
  postprocess labels [row] = Ok r ->
  (i < List.length row)%nat ->
  nth_error labels i = Some l ->
  (forall j, (i < j < List.length row)%nat -> nth_error labels j <> Some l) ->
  dict_get l (probabilities r) = Some (nth i (TF.softmax_row row) 0%R).
Proof.
  intros H Hi Hl Hlast. apply postprocess_ok_inv in H.
  destruct H as [_ [_ [_ Hprobs]]]. rewrite Hprobs.
  apply probabilities_lookup; assumption.
Qed.

Lemma postprocess_last_occurrence_wins_witness :
  exists r,
    postprocess ["a"; "b"; "a"]%string [[5; 1; 0]%R] = Ok r /\
    dict_get "a" (probabilities r) =
      Some (nth 2 (TF.softmax_row [5; 1; 0]%R) 0%R).
Proof.
  destruct (@postprocess_accepts ["a"; "b"; "a"]%string [5; 1; 0]%R)
    as [i0 [pred [_ [_ H]]]]; [discriminate|simpl; lia|].
  eexists. split; [exact H|].
  apply (@postprocess_last_occurrence_wins ["a"; "b"; "a"]%string
           [5; 1; 0]%R _ 2 "a"%string H).
  - simpl; lia.
  - reflexivity.
  - simpl. intros j Hj. lia.
Defined.

(** X7.  The mapping [postprocess] returns has no key twice and at most
    one entry per logit. *)
Theorem postprocess_keys_distinct (labels : list string) (row : list R)
  (r : prediction_result) :
  postprocess labels [row] = Ok r ->
  NoDup (keys (probabilities r)) /\
  (List.length (probabilities r) <= List.length row)%nat.
Proof.
  intros H. apply postprocess_ok_inv in H.
  destruct H as [_ [_ [_ Hprobs]]]. rewrite Hprobs. split.
  - apply keys_dict_assign_NoDup. constructor.
  - pose proof (length_dict_assign
                  (combine (firstn (List.length row) labels) (TF.softmax_row row))
                  []) as Hl.
    rewrite length_combine, softmax_row_length in Hl. simpl in Hl. lia.
Qed.

Lemma postprocess_keys_distinct_witness :
  exists r,
    postprocess ["a"; "b"; "a"]%string [[5; 1; 0]%R] = Ok r /\
    NoDup (keys (probabilities r)).
Proof.
  destruct (@postprocess_accepts ["a"; "b"; "a"]%string [5; 1; 0]%R)
    as [i0 [pred [_ [_ H]]]]; [discriminate|simpl; lia|].
  eexists. split; [exact H|].
  exact (proj1 (postprocess_keys_distinct _ _ H)).
Defined.

(** ** More on [preprocess] *)


(** X10.  For a captured [image_size] with positive sides, the array
    [preprocess] returns has the shape of a batch of one input of the model
    [main] builds from the same [image_size] and [grayscale] exactly when
    [grayscale] is false and the two sides of [image_size] are equal:
    Pillow takes the size as (width, height), the array comes out as
    (height, width), and the model is built for the two entries in their
    given order.  This holds of the model of the five layers as declared,
    and of the model [get_model] returns whenever it returns one. *)
Theorem preprocess_fits_model_iff (pillow : PIL.codec) (grayscale : bool)
  (image_size : Z * Z) (x : PIL.image)
  (conv_size dense_size output_classes : Z) :
  (0 < fst image_size)%Z ->
  (0 < snd image_size)%Z ->
  exists a,
    preprocess pillow grayscale image_size x = Ok a /\
    (Some (NP.shape a) =
       option_map as_batch_of_one
         (Keras.model_input_shape
            (Keras.Sequential
               (get_model_layers (image_shape image_size grayscale)
                  conv_size dense_size output_classes))) <->
     grayscale = false /\ fst image_size = snd image_size) /\
    (forall m,
       get_model (image_shape image_size grayscale)
         conv_size dense_size output_classes = Ok m ->
       (Some (NP.shape a) =
          option_map as_batch_of_one (Keras.model_input_shape m) <->
        grayscale = false /\ fst image_size = snd image_size)).
Proof.
  intros Hw Hh.
  destruct (@preprocess_valid_size pillow grayscale image_size x Hw Hh) as [_ Hp].
  destruct (prepared_image_format pillow grayscale image_size x) as [Hm Hs].
  eexists. split; [exact Hp|].
  assert (Hiff :
    Some (NP.shape
            (NP.expand_dims0
               (NP.true_divide
                  (NP.array (prepared_image pillow grayscale image_size x))
                  255))) =
      option_map as_batch_of_one
        (Keras.model_input_shape
           (Keras.Sequential
              (get_model_layers (image_shape image_size grayscale)
                 conv_size dense_size output_classes))) <->
    grayscale = false /\ fst image_size = snd image_size).
  { cbn [NP.shape NP.expand_dims0 NP.true_divide].
    unfold NP.array. cbn [NP.shape]. rewrite Hm, Hs.
    unfold get_model_layers, image_shape, as_batch_of_one.
    cbn [Keras.model_input_shape Keras.layers option_map fst snd].
    destruct grayscale; cbn [PIL.bands Nat.eqb].
    - split; [intros E; discriminate E|intros [E _]; discriminate E].
    - split.
      + intros E. injection E as E1 E2. split; [reflexivity|]. congruence.
      + intros [_ E]. rewrite E. reflexivity. }
  split; [exact Hiff|].
  intros m Hgm. apply get_model_returns in Hgm. subst m. exact Hiff.
Qed.

Lemma preprocess_fits_model_iff_witness :
  exists a,
    preprocess Sample.codec false (4, 2)%Z Sample.image = Ok a /\
    Some (NP.shape a) <>
      option_map as_batch_of_one
        (Keras.model_input_shape
           (Keras.Sequential
              (get_model_layers (image_shape (4, 2)%Z false) 32 64 11))).
Proof.
  destruct (@preprocess_fits_model_iff Sample.codec false (4, 2)%Z Sample.image
              32 64 11) as [a [Ha [Hiff _]]]; [reflexivity|reflexivity|].
  exists a. split; [exact Ha|].
  intro E. apply Hiff in E. destruct E as [_ E]. discriminate E.
Defined.

(** ** More on [get_model] *)

Lemma pooled_side (n : Z) : ((n - 3 + 1 - 3) / 3 + 1 = (n - 2) / 3)%Z.
Proof.
  replace (n - 2)%Z with (n - 3 + 1 - 3 + 1 * 3)%Z by lia.
  rewrite Z.div_add by lia. reflexivity.
Qed.

(** X11.  The shapes fit through the layers [get_model] stacks exactly
    when both sides of the image are at least 5; then the flattened
    features that reach the first dense layer number
    [((H - 2) / 3) * ((W - 2) / 3) * conv_size], and the model's output has
    the shape [(output_classes)]. *)
Theorem get_model_shape_propagation
  (H W C conv_size dense_size output_classes : Z) :
  let ls := get_model_layers (H, W, C) conv_size dense_size output_classes in
  Keras.output_shape ls [H; W; C] =
    (if ((5 <=? H) && (5 <=? W))%Z then Some [output_classes] else None) /\
  Keras.output_shape (firstn 3 ls) [H; W; C] =
    (if ((5 <=? H) && (5 <=? W))%Z
     then Some [((H - 2) / 3 * ((W - 2) / 3) * conv_size)%Z] else None).
Proof.
  cbv zeta. unfold get_model_layers. cbn [firstn Keras.output_shape
                                           Keras.layer_output_shape].
  destruct (3 <=? H)%Z eqn:E1; destruct (3 <=? W)%Z eqn:E2; cbn [andb].
  2-4: (destruct (5 <=? H)%Z eqn:F1; destruct (5 <=? W)%Z eqn:F2; cbn [andb];
        try (split; reflexivity);
        apply Z.leb_le in F1 || apply Z.leb_gt in F1;
        apply Z.leb_le in F2 || apply Z.leb_gt in F2;
        apply Z.leb_le in E1 || apply Z.leb_gt in E1;
        apply Z.leb_le in E2 || apply Z.leb_gt in E2; lia).
  cbn [Z.ltb Z.compare andb].
  destruct (3 <=? H - 3 + 1)%Z eqn:E3; destruct (3 <=? W - 3 + 1)%Z eqn:E4;
    destruct (5 <=? H)%Z eqn:F1; destruct (5 <=? W)%Z eqn:F2; cbn [andb];
    try (apply Z.leb_le in E3 || apply Z.leb_gt in E3);
    try (apply Z.leb_le in E4 || apply Z.leb_gt in E4);
    try (apply Z.leb_le in F1 || apply Z.leb_gt in F1);
    try (apply Z.leb_le in F2 || apply Z.leb_gt in F2);
    try lia; try (split; reflexivity).
  cbn [fold_right]. rewrite !pooled_side. split; [reflexivity|].
  do 2 f_equal. ring.
Qed.

(** ** More on [main]: the parameter file *)

(** X12.  With three command-line words, a parameter file that cannot be
    read or parsed ends the run on that exception after the file was opened
    once; a file without the section "prepare" ends it on
    [KeyError("prepare")], also after one opening; a file with "prepare"
    but without "train" ends it on [KeyError("train")] after the file was
    opened a second time.  In each case nothing else has happened. *)
Theorem main_parameter_file_errors (env : environment) (eng : engine)
  (argv : list string) (w : world) :
  List.length argv = 3%nat ->
  (forall e, yaml_params env = Raise e ->
     main env eng argv w = (Uncaught e, after w [OpenRead "params.yaml"])) /\
  (forall doc, yaml_params env = Ok doc -> section_prepare doc = None ->
     main env eng argv w =
       (Uncaught (KeyError "prepare"), after w [OpenRead "params.yaml"])) /\
  (forall doc pp, yaml_params env = Ok doc ->
     section_prepare doc = Some pp -> section_train doc = None ->
     main env eng argv w =
       (Uncaught (KeyError "train"),
        after w [OpenRead "params.yaml"; OpenRead "params.yaml"])).
Proof.
  intros Hargs. unfold main. rewrite Hargs. cbn [Nat.eqb negb].
  split; [|split].
  - intros e He. unfold bind at 1. unfold yaml_section, bind, emit, lift.
    rewrite He. reflexivity.
  - intros doc Hdoc Hp. unfold bind at 1. unfold yaml_section, bind, emit, lift.
    rewrite Hdoc. unfold ret. rewrite Hp. reflexivity.
  - intros doc pp Hdoc Hp Ht. unfold bind at 1.
    unfold yaml_section at 1. unfold bind at 1 2. unfold emit at 1, lift at 1.
    rewrite Hdoc. unfold ret at 1. rewrite Hp. unfold ret at 1.
    unfold bind at 1. unfold yaml_section, bind, emit, lift.
    rewrite Hdoc. unfold ret. rewrite Ht. unfold raise, after.
    cbn [trace rng bento_store files]. rewrite <- app_assoc. reflexivity.
Qed.

Lemma main_parameter_file_errors_witness :
  main (Sample.env_with_params
          (Ok {| section_prepare := section_prepare Sample.params;
                 section_train := None |}))
       Sample.eng Sample.argv Sample.world0 =
  (Uncaught (KeyError "train"),
   after Sample.world0 [OpenRead "params.yaml"; OpenRead "params.yaml"]).
Proof.
  destruct (@main_parameter_file_errors
              (Sample.env_with_params
                 (Ok {| section_prepare := section_prepare Sample.params;
                        section_train := None |}))
              Sample.eng Sample.argv Sample.world0) as [_ [_ H]].
  - reflexivity.
  - eapply H; reflexivity.
Defined.

(** ** More on [main]: what a run leaves behind *)

Create HintDb quiet.

Lemma quiet_ret (A : Type) (a : A) : quiet (ret a).
Proof. intros w o w' H. inversion H; subst. split; reflexivity. Qed.

Lemma quiet_raise (A : Type) (e : exn) : quiet (@raise A e).
Proof. intros w o w' H. inversion H; subst. split; reflexivity. Qed.

Lemma quiet_exit (A : Type) (s : Z) : quiet (@exit A s).
Proof. intros w o w' H. inversion H; subst. split; reflexivity. Qed.

Lemma quiet_lift (A : Type) (r : result A) : quiet (lift r).
Proof. destruct r; [apply quiet_ret|apply quiet_raise]. Qed.

Lemma quiet_emit (e : event) : quiet (emit e).
Proof. intros w o w' H. inversion H; subst. split; reflexivity. Qed.

Lemma quiet_get_rng : quiet get_rng.
Proof. intros w o w' H. inversion H; subst. split; reflexivity. Qed.

Lemma quiet_put_rng (r : rng_state) : quiet (put_rng r).
Proof. intros w o w' H. inversion H; subst. split; reflexivity. Qed.

Lemma quiet_bind (A B : Type) (m : M A) (k : A -> M B) :
  quiet m -> (forall a, quiet (k a)) -> quiet (bind m k).
Proof.
  intros Hm Hk w o w'. unfold bind.
  destruct (m w) as [[a|s|e] w1] eqn:E; intros H.
  - destruct (Hm _ _ _ E) as [S1 F1]. destruct (Hk _ _ _ _ H) as [S2 F2].
    split; congruence.
  - inversion H; subst. exact (Hm _ _ _ E).
  - inversion H; subst. exact (Hm _ _ _ E).
Qed.

#[local] Hint Resolve quiet_ret quiet_raise quiet_exit quiet_lift quiet_emit
  quiet_get_rng quiet_put_rng : quiet.

Ltac quiet_steps :=
  repeat first
    [ solve [auto with quiet]
    | apply quiet_bind; [|intro] ].

Section Quiet.
Variable env : environment.
Variable eng : engine.

Lemma quiet_yaml_section (A : Type) (sel : params_file -> option A)
  (key : string) : quiet (yaml_section env sel key).
Proof.
  unfold yaml_section. quiet_steps. destruct (sel _); auto with quiet.
Qed.

Lemma quiet_set_seed (seed : Z) : quiet (set_seed seed).
Proof. unfold set_seed. auto with quiet. Qed.

Lemma quiet_dataset_load (path : string) : quiet (dataset_load env path).
Proof. unfold dataset_load. quiet_steps. Qed.

Lemma quiet_json_load (path : string) : quiet (json_load env path).
Proof. unfold json_load. quiet_steps. Qed.

Lemma quiet_instantiate (arch : Keras.sequential) :
  quiet (instantiate eng arch).
Proof. unfold instantiate. quiet_steps. Qed.

Lemma quiet_fit_epoch c ds_train ds_val epoch total m :
  quiet (fit_epoch eng c ds_train ds_val epoch total m).
Proof. unfold fit_epoch. quiet_steps. Qed.

Lemma quiet_fit_loop c ds_train ds_val total n :
  forall epoch m, quiet (fit_loop eng c ds_train ds_val n epoch total m).
Proof.
  induction n as [|n IH]; intros epoch m; simpl.
  - apply quiet_ret.
  - apply quiet_bind; [apply quiet_fit_epoch|intro; apply IH].
Qed.

Lemma quiet_fit m ds_train epochs ds_val :
  quiet (fit eng m ds_train epochs ds_val).
Proof.
  unfold fit. destruct (m_compiled m);
    [apply quiet_fit_loop|apply quiet_raise].
Qed.

Lemma quiet_mkdir path parents exist_ok :
  quiet (mkdir env path parents exist_ok).
Proof. unfold mkdir. quiet_steps. Qed.

(** A quiet step in front changes nothing to what a run leaves behind. *)
Lemma settles_after_quiet (A : Type) (m : M A) (k : A -> M unit) :
  quiet m -> (forall a, settles (k a)) -> settles (bind m k).
Proof.
  intros Hm Hk w. unfold bind.
  destruct (m w) as [[a|s|e] w1] eqn:E; destruct (Hm _ _ _ E) as [S1 F1].
  - specialize (Hk a w1). unfold settled in *. rewrite S1, F1 in Hk. exact Hk.
  - left. split; [discriminate|]. split; assumption.
  - left. split; [discriminate|]. split; assumption.
Qed.

Lemma bind_inv_any (A B : Type) (m : M A) (k : A -> M B) (w w' : world)
  (o : outcome B) :
  bind m k w = (o, w') ->
  (exists a w1, m w = (Done a, w1) /\ k a w1 = (o, w')) \/
  (exists st, m w = (Exit st, w') /\ o = Exit st) \/
  (exists e, m w = (Uncaught e, w') /\ o = Uncaught e).
Proof.
  unfold bind. destruct (m w) as [[a|st|e] w1]; intros H.
  - left. exists a, w1. split; [reflexivity|exact H].
  - right. left. exists st. inversion H; subst. split; reflexivity.
  - right. right. exists e. inversion H; subst. split; reflexivity.
Qed.

(** A step that fails after a check of the file system did nothing. *)
Lemma save_model_any (name : string) (m : model) (opt : bool)
  (objs : list (string * closure)) (w w' : world) (o : outcome unit) :
  bentoml_keras_save_model env name m opt objs w = (o, w') ->
  (o = Done tt /\
   bento_store w' =
     bento_store w ++
     [(name, {| b_model := m; b_include_optimizer := opt;
                b_custom_objects := objs |})] /\
   files w' = files w) \/
  (o <> Done tt /\ w' = w).
Proof.
  unfold bentoml_keras_save_model, bind.
  destruct (store_writable env) as [[]|e]; cbn [lift ret raise];
    intros H; inversion H; subst.
  - left. repeat split; reflexivity.
  - right. split; [discriminate|reflexivity].
Qed.

Lemma write_file_any (path : string) (c : file_content) (w w' : world)
  (o : outcome unit) :
  write_file env path c w = (o, w') ->
  (o = Done tt /\ bento_store w' = bento_store w /\
   files w' = (path, c) :: files w) \/
  (o <> Done tt /\ w' = w).
Proof.
  unfold write_file, bind.
  destruct (write_at env path) as [[]|e]; cbn [lift ret raise];
    intros H; inversion H; subst.
  - left. repeat split; reflexivity.
  - right. split; [discriminate|reflexivity].
Qed.

Lemma export_model_any (name : string) (v : tag_version) (path : string)
  (w w' : world) (o : outcome unit) :
  bentoml_models_export_model env name v path w = (o, w') ->
  (exists b,
      store_get name v (bento_store w) = Some b /\ o = Done tt /\
      bento_store w' = bento_store w /\
      files w' = (path, BentoModelFile b) :: files w) \/
  (o <> Done tt /\ w' = w).
Proof.
  unfold bentoml_models_export_model.
  destruct (store_get name v (bento_store w)) as [b|].
  - intros H. apply write_file_any in H. destruct H as [[Ho [Hs Hf]]|H].
    + left. exists b. repeat split; assumption.
    + right. exact H.
  - intros H. inversion H; subst. right. split; [discriminate|reflexivity].
Qed.

(** The four packaging steps, from the registration on. *)
Lemma packaging_settles (m : model) (objs : list (string * closure))
  (p hp s : string) :
  settles
    (bind (bentoml_keras_save_model env model_name m true objs) (fun _ =>
     bind (bentoml_models_export_model env model_name Latest p) (fun _ =>
     bind (np_save env hp (m_history m)) (fun _ => print s)))).
Proof.
  intros w. unfold settled.
  match goal with |- context [fst ?r] => destruct r as [o w'] eqn:E end.
  cbn [fst snd].
  set (b := {| b_model := m; b_include_optimizer := true;
               b_custom_objects := objs |}).
  assert (Hfail1 : forall o1 : outcome unit,
             bentoml_keras_save_model env model_name m true objs w = (o1, w') ->
             o1 <> Done tt -> bento_store w' = bento_store w /\ files w' = files w).
  { intros o1 H1 N. apply save_model_any in H1.
    destruct H1 as [[C _]|[_ ->]]; [contradiction|split; reflexivity]. }
  apply bind_inv_any in E.
  destruct E as [[[] [w1 [E1 E]]]|[[st [E1 ->]]|[e [E1 ->]]]].
  2:{ left. split; [discriminate|]. apply (Hfail1 _ E1). discriminate. }
  2:{ left. split; [discriminate|]. apply (Hfail1 _ E1). discriminate. }
  clear Hfail1. apply save_model_any in E1.
  destruct E1 as [[_ [S1 F1]]|[N1 _]]; [|congruence].
  fold b in S1. right. exists b.
  assert (Hfail2 : forall o2 : outcome unit,
             bentoml_models_export_model env model_name Latest p w1 = (o2, w') ->
             o2 <> Done tt ->
             bento_store w' = bento_store w ++ [(model_name, b)] /\
             files w' = files w).
  { intros o2 H2 N. apply export_model_any in H2.
    destruct H2 as [[b0 [_ [C _]]]|[_ ->]]; [contradiction|split; assumption]. }
  apply bind_inv_any in E.
  destruct E as [[[] [w2 [E2 E]]]|[[st [E2 ->]]|[e [E2 ->]]]].
  2:{ destruct (Hfail2 _ E2) as [S F]; [discriminate|].
      split; [exact S|]. left. split; [discriminate|exact F]. }
  2:{ destruct (Hfail2 _ E2) as [S F]; [discriminate|].
      split; [exact S|]. left. split; [discriminate|exact F]. }
  clear Hfail2. apply export_model_any in E2.
  destruct E2 as [[b0 [Hb [_ [S2 F2]]]]|[N2 _]]; [|congruence].
  cbn [store_get] in Hb. rewrite S1, store_latest_last in Hb.
  injection Hb as <-.
  assert (Hfail3 : forall o3 : outcome unit,
             np_save env hp (m_history m) w2 = (o3, w') ->
             o3 <> Done tt ->
             bento_store w' = bento_store w ++ [(model_name, b)] /\
             files w' = (p, BentoModelFile b) :: files w).
  { intros o3 H3 N. apply write_file_any in H3.
    destruct H3 as [[C _]|[_ ->]]; [contradiction|split; congruence]. }
  apply bind_inv_any in E.
  destruct E as [[[] [w3 [E3 E]]]|[[st [E3 ->]]|[e [E3 ->]]]].
  2:{ destruct (Hfail3 _ E3) as [S F]; [discriminate|].
      split; [exact S|]. right. left. exists p. split; [discriminate|exact F]. }
  2:{ destruct (Hfail3 _ E3) as [S F]; [discriminate|].
      split; [exact S|]. right. left. exists p. split; [discriminate|exact F]. }
  clear Hfail3. apply write_file_any in E3.
  destruct E3 as [[_ [S3 F3]]|[N3 _]]; [|congruence].
  inversion E; subst o w'. cbn [files bento_store].
  split; [congruence|]. right. right. exists p, hp.
  split; [reflexivity|]. cbn [b_model b]. congruence.
Qed.
End Quiet.

#[local] Hint Resolve quiet_yaml_section quiet_set_seed quiet_dataset_load
  quiet_json_load quiet_instantiate quiet_fit quiet_mkdir : quiet.


(** On a file system that refuses writes the model is registered and
    stays in the store, and no file is written. *)
Example main_sample_read_only :
  let r := main Sample.env_read_only Sample.eng Sample.argv Sample.world0 in
  fst r = Uncaught (OtherError "read-only file system") /\
  List.length (bento_store (snd r)) = 1%nat /\
  files (snd r) = [].
Proof. vm_compute. repeat split; reflexivity. Qed.

(** ** More on [main]: what a completed run read and wrote *)

Section Reads.
Variable env : environment.
Variable eng : engine.

Lemma fit_epoch_no_files c ds_train ds_val epoch total m m' w w' :
  fit_epoch eng c ds_train ds_val epoch total m w = (Done m', w') ->
  exists evs, adds evs w w' /\ filter touches_filesystem evs = [].
Proof.
  unfold fit_epoch. intros H.
  bind_inv H. bind_inv H. bind_inv H. bind_inv H. bind_inv H.
  bind_inv H. bind_inv H. bind_inv H. bind_inv H. bind_inv H. bind_inv H.
  repeat match goal with
         | Hs : lift _ _ = (Done _, _) |- _ => lift_inv Hs
         | Hs : emit _ _ = (Done _, _) |- _ => inversion Hs; subst; clear Hs
         | Hs : get_rng _ = (Done _, _) |- _ => inversion Hs; subst; clear Hs
         | Hs : put_rng _ _ = (Done _, _) |- _ => inversion Hs; subst; clear Hs
         end.
  inversion H; subst; clear H.
  eexists. split.
  - unfold adds. cbn [trace bento_store files]. split.
    + rewrite <- !app_assoc. reflexivity.
    + split; reflexivity.
  - reflexivity.
Qed.

Lemma fit_loop_no_files c ds_train ds_val total n :
  forall epoch m m' w w',
    fit_loop eng c ds_train ds_val n epoch total m w = (Done m', w') ->
    exists evs, adds evs w w' /\ filter touches_filesystem evs = [].
Proof.
  induction n as [|n IH]; intros epoch m m' w w' H; simpl in H.
  - inversion H; subst. exists []. split; [|reflexivity].
    unfold adds. rewrite app_nil_r. repeat split; reflexivity.
  - bind_inv H. apply fit_epoch_no_files in Hstep.
    destruct Hstep as [e1 [A1 F1]]. apply IH in H. destruct H as [e2 [A2 F2]].
    exists (e1 ++ e2). split; [exact (adds_trans A1 A2)|].
    rewrite filter_app, F1, F2. reflexivity.
Qed.

Lemma fit_no_files m m' ds_train epochs ds_val w w' :
  fit eng m ds_train epochs ds_val w = (Done m', w') ->
  exists evs, adds evs w w' /\ filter touches_filesystem evs = [].
Proof.
  unfold fit. destruct (m_compiled m); [|discriminate].
  apply fit_loop_no_files.
Qed.
End Reads.

(** X14.  A run that returns normally has read, in this order and nothing
    else: [params.yaml] twice, the dataset at [<dataset folder>/train], the
    dataset at [<dataset folder>/test] and [<dataset folder>/labels.json],
    the dataset folder being the first argument; and then made the model
    folder, registered the model and written the two output files.  The
    labels carried by the exported [postprocess] closure are the ones read
    from that [labels.json]. *)
Theorem main_reads_then_writes (env : environment) (eng : engine)
  (argv : list string) (w w' : world) :
  main env eng argv w = (Done tt, w') ->
  exists arg1 arg2 ds_train ds_test labels b new,
    nth_error argv 1 = Some arg1 /\
    nth_error argv 2 = Some arg2 /\
    let data := path_str env arg1 in
    let out := path_str env arg2 in
    dataset_at env (path_join env data "train") = Ok ds_train /\
    dataset_at env (path_join env data "test") = Ok ds_test /\
    labels_at env (path_join env data "labels.json") = Ok labels /\
    In ("postprocess"%string, postprocess_closure labels) (b_custom_objects b) /\
    trace w' = trace w ++ new /\
    filter touches_filesystem new =
      [ OpenRead "params.yaml";
        OpenRead "params.yaml";
        DatasetLoad (path_join env data "train");
        DatasetLoad (path_join env data "test");
        OpenRead (path_join env data "labels.json");
        Mkdir out true true;
        StoreSave "celestial_bodies_classifier_model" b;
        WriteFile (out ++ "/celestial_bodies_classifier_model.bentomodel")
          (BentoModelFile b);
        WriteFile (path_join env out "history.npy")
          (NpyFile (m_history (b_model b))) ].
Proof.
  unfold main. destruct (List.length argv =? 3)%nat eqn:Hargs; cbn [negb].
  2:{ intros H. bind_step H as u1 H1. bind_step H as u2 H2. discriminate H. }
  intros H.
  bind_step H as pp A1. apply yaml_section_done in A1. destruct A1 as [A1 _].
  bind_step H as tp A2. apply yaml_section_done in A2. destruct A2 as [A2 _].
  bind_step H as arg1 E1. lift_inv E1.
  bind_step H as arg2 E2. lift_inv E2.
  bind_step H as u3 A3. apply set_seed_done in A3.
  bind_step H as ds_train A4. apply dataset_load_done in A4.
  destruct A4 as [A4 D4].
  bind_step H as ds_test A5. apply dataset_load_done in A5.
  destruct A5 as [A5 D5].
  bind_step H as labels A6. apply json_load_done in A6. destruct A6 as [A6 D6].
  bind_step H as arch B7. lift_inv B7.
  bind_step H as m0 A7. apply instantiate_done in A7. destruct A7 as [A7 _].
  bind_step H as u4 A8. apply emit_done in A8.
  bind_step H as m A9. apply fit_no_files in A9. destruct A9 as [evs [A9 F9]].
  bind_step H as u5 A10. apply mkdir_done in A10.
  bind_step H as u6 A11. apply save_model_done in A11.
  destruct A11 as [T11 [S11 _]].
  bind_step H as u7 A12. apply export_model_done in A12.
  destruct A12 as [b [Hb [T12 _]]].
  bind_step H as u8 A13. apply write_file_done in A13. destruct A13 as [T13 _].
  apply emit_done in H. destruct H as [T14 _].
  pose proof (adds_trans A1 (adds_trans A2 (adds_trans A3 (adds_trans A4
               (adds_trans A5 (adds_trans A6 (adds_trans A7 (adds_trans A8
                 (adds_trans A9 A10))))))))) as [T _].
  cbn [store_get] in Hb. rewrite S11 in Hb.
  change "celestial_bodies_classifier_model"%string with model_name in Hb.
  rewrite store_latest_last in Hb. injection Hb as <-.
  exists arg1, arg2, ds_train, ds_test, labels.
  match type of T11 with context [StoreSave _ ?bb] => exists bb end.
  eexists.
  split; [unfold getitem in E; destruct (nth_error argv 1); congruence|].
  split; [unfold getitem in E0; destruct (nth_error argv 2); congruence|].
  cbv zeta.
  split; [exact D4|]. split; [exact D5|]. split; [exact D6|].
  split; [cbn [b_custom_objects]; right; left; reflexivity|].
  split.
  - rewrite T14, T13, T12, T11, T. rewrite <- !app_assoc. reflexivity.
  - rewrite !filter_app, F9. reflexivity.
Qed.

Lemma main_reads_then_writes_witness :
  exists new,
    trace (snd (main Sample.env Sample.eng Sample.argv Sample.world0)) =
      trace Sample.world0 ++ new /\
    firstn 5 (filter touches_filesystem new) =
      [ OpenRead "params.yaml"; OpenRead "params.yaml";
        DatasetLoad "data/train"; DatasetLoad "data/test";
        OpenRead "data/labels.json" ].
Proof.
  assert (R : main Sample.env Sample.eng Sample.argv Sample.world0 =
              (Done tt, snd (main Sample.env Sample.eng Sample.argv Sample.world0)))
    by (vm_compute; reflexivity).
  destruct (@main_reads_then_writes _ _ _ _ _ R)
    as [arg1 [arg2 [dtr [dte [labels [b [new H]]]]]]].
  destruct H as [H1 [H2 [_ [_ [_ [_ [Ht Hf]]]]]]].
  injection H1 as <-. injection H2 as <-.
  exists new. split; [exact Ht|]. rewrite Hf. reflexivity.
Defined.

(** X15.  The model a completed run exports is the one it trained.  The
    run instantiates the architecture [get_model] returned for the
    parameters of the file, compiles it with the optimizer Adam at the
    learning rate [lr], the sparse categorical cross-entropy computed from
    logits and the sparse categorical accuracy, prints its summary, and
    calls [fit] on it with the dataset read from [train], the configured
    number of epochs and the dataset read from [test] for validation.  The
    model [fit] returns is the one registered, with its optimizer, as the
    newest version in the store, the one written to the [.bentomodel]
    file, and the one whose history is written to [history.npy]; nothing
    else happens after [fit] but the packaging.  Its last layer is the
    dense layer of [output_classes] units without activation, so that it
    emits the logits that loss and [postprocess] expect. *)
Theorem main_exports_compiled_model (env : environment) (eng : engine)
  (argv : list string) (w w' : world) :
  main env eng argv w = (Done tt, w') ->
  exists doc pp tp arg1 arg2 ds_train ds_test arch m0 b w1 w2 w3 w4,
    yaml_params env = Ok doc /\
    section_prepare doc = Some pp /\
    section_train doc = Some tp /\
    nth_error argv 1 = Some arg1 /\
    nth_error argv 2 = Some arg2 /\
    let data := path_str env arg1 in
    let out := path_str env arg2 in
    let export_path :=
      (out ++ "/celestial_bodies_classifier_model.bentomodel")%string in
    let history_path := path_join env out "history.npy" in
    let cfg := {| cc_optimizer := Adam (tp_lr tp);
                  cc_loss := SparseCategoricalCrossentropy true;
                  cc_metrics := [SparseCategoricalAccuracy] |} in
    dataset_at env (path_join env data "train") = Ok ds_train /\
    dataset_at env (path_join env data "test") = Ok ds_test /\
    get_model (image_shape (pp_image_size pp) (pp_grayscale pp))
      (tp_conv_size tp) (tp_dense_size tp) (tp_output_classes tp) = Ok arch /\
    adds [ OpenRead "params.yaml"; OpenRead "params.yaml";
           DatasetLoad (path_join env data "train");
           DatasetLoad (path_join env data "test");
           OpenRead (path_join env data "labels.json") ] w w1 /\
    instantiate eng arch w1 = (Done m0, w2) /\
    summary (compile m0 cfg) w2 = (Done tt, w3) /\
    fit eng (compile m0 cfg) ds_train (tp_epochs tp) ds_test w3 =
      (Done (b_model b), w4) /\
    trace w' =
      trace w4 ++
      [ Mkdir out true true;
        StoreSave "celestial_bodies_classifier_model" b;
        WriteFile export_path (BentoModelFile b);
        WriteFile history_path (NpyFile (m_history (b_model b)));
        Print (nl ++ "Model saved at " ++ path_absolute env out) ] /\
    bento_store w' =
      bento_store w ++ [("celestial_bodies_classifier_model"%string, b)] /\
    store_get "celestial_bodies_classifier_model" Latest (bento_store w') =
      Some b /\
    files w' =
      (history_path, NpyFile (m_history (b_model b)))
      :: (export_path, BentoModelFile b) :: files w /\
    b_include_optimizer b = true /\
    m_compiled (b_model b) = Some cfg /\
    last (Keras.layers (m_arch (b_model b))) Keras.Flatten =
      Keras.Dense (tp_output_classes tp) None.
Proof.
  unfold main. destruct (List.length argv =? 3)%nat eqn:Hargs; cbn [negb].
  2:{ intros H. bind_step H as u1 H1. bind_step H as u2 H2. discriminate H. }
  intros H.
  bind_step H as pp A1. apply yaml_section_done in A1.
  destruct A1 as [A1 [doc [Hdoc Hpp]]].
  bind_step H as tp A2. apply yaml_section_done in A2.
  destruct A2 as [A2 [doc' [Hdoc' Htp]]].
  assert (doc' = doc) by congruence. subst doc'.
  bind_step H as arg1 E1. lift_inv E1.
  bind_step H as arg2 E2. lift_inv E2.
  bind_step H as u3 A3. apply set_seed_done in A3.
  bind_step H as ds_train A4. apply dataset_load_done in A4.
  destruct A4 as [A4 D4].
  bind_step H as ds_test A5. apply dataset_load_done in A5.
  destruct A5 as [A5 D5].
  bind_step H as labels A6. apply json_load_done in A6. destruct A6 as [A6 _].
  bind_step H as arch B7. lift_inv B7.
  match goal with
  | HH : get_model _ _ _ _ = Ok _ |- _ => rename HH into Hgm
  end.
  bind_step H as m0 A7. pose proof A7 as I7. apply instantiate_done in A7.
  destruct A7 as [A7 [Harch _]].
  bind_step H as u4 A8. pose proof A8 as I8. apply emit_done in A8.
  bind_step H as m A9. pose proof A9 as I9. apply fit_done in A9.
  destruct A9 as [logs [evs [_ [A9 [_ [_ [Ha Hc]]]]]]].
  bind_step H as u5 A10. apply mkdir_done in A10.
  bind_step H as u6 A11. apply save_model_done in A11.
  destruct A11 as [T11 [S11 F11]].
  bind_step H as u7 A12. apply export_model_done in A12.
  destruct A12 as [b [Hb [T12 [S12 F12]]]].
  bind_step H as u8 A13. apply write_file_done in A13.
  destruct A13 as [T13 [S13 F13]].
  apply emit_done in H. destruct H as [T14 [S14 F14]].
  pose proof (adds_trans A1 (adds_trans A2 (adds_trans A3 (adds_trans A4
               (adds_trans A5 A6))))) as R16.
  destruct (adds_trans R16 (adds_trans A7 (adds_trans A8 A9))) as [_ [S F]].
  destruct A10 as [T10 [S10 F10]].
  cbn [store_get] in Hb. rewrite S11 in Hb.
  change "celestial_bodies_classifier_model"%string with model_name in Hb.
  rewrite store_latest_last in Hb. injection Hb as <-.
  destruct u4.
  exists doc, pp, tp, arg1, arg2, ds_train, ds_test, arch, m0.
  match type of S11 with _ = _ ++ [(_, ?bb)] => exists bb end.
  match type of I7 with instantiate _ _ ?a = (_, ?b) => exists a, b end.
  match type of I9 with fit _ _ _ _ _ ?a = (_, ?b) => exists a, b end.
  split; [exact Hdoc|]. split; [exact Hpp|]. split; [exact Htp|].
  split; [unfold getitem in E; destruct (nth_error argv 1); congruence|].
  split; [unfold getitem in E0; destruct (nth_error argv 2); congruence|].
  cbv zeta.
  split; [exact D4|]. split; [exact D5|]. split; [exact Hgm|].
  split; [exact R16|].
  split; [exact I7|]. split; [exact I8|]. split; [exact I9|].
  split.
  { rewrite T14, T13, T12, T11, T10. rewrite <- !app_assoc. reflexivity. }
  split.
  { rewrite S14, S13, S12, S11, S10, S. reflexivity. }
  split.
  { rewrite S14, S13, S12, S11. cbn [store_get].
    apply (store_latest_last model_name). }
  split.
  { rewrite F14, F13, F12, F11, F10, F. reflexivity. }
  split; [reflexivity|]. cbn [b_model].
  split; [rewrite Hc; reflexivity|].
  rewrite Ha. cbn [compile m_arch]. rewrite Harch.
  apply get_model_returns in Hgm. rewrite Hgm. reflexivity.
Qed.

(** The statement on the sample instance: the exported file holds the
    model [fit] returned, compiled with Adam at the learning rate 0.001 of
    the sample parameters. *)
Lemma main_exports_compiled_model_witness :
  exists b h,
    files (snd (main Sample.env Sample.eng Sample.argv Sample.world0)) =
      [ ("out/history.npy"%string, NpyFile h);
        ("out/celestial_bodies_classifier_model.bentomodel"%string,
         BentoModelFile b) ] /\
    m_compiled (b_model b) =
      Some {| cc_optimizer := Adam (1 # 1000);
              cc_loss := SparseCategoricalCrossentropy true;
              cc_metrics := [SparseCategoricalAccuracy] |}.
Proof.
  assert (R : main Sample.env Sample.eng Sample.argv Sample.world0 =
              (Done tt, snd (main Sample.env Sample.eng Sample.argv Sample.world0)))
    by (vm_compute; reflexivity).
  destruct (@main_exports_compiled_model _ _ _ _ _ R)
    as [doc [pp [tp [arg1 [arg2 [dtr [dte [arch [m0 [b [w1 [w2 [w3 [w4 H]]]]]]]]]]]]]].
  destruct H as [Hdoc [_ [Htp [_ [Harg H]]]]]. cbv zeta in H.
  destruct H as [_ [_ [_ [_ [_ [_ [_ [_ [_ [_ [Hf [_ [Hc _]]]]]]]]]]]]].
  injection Hdoc as <-. injection Htp as <-. injection Harg as <-.
  exists b, (m_history (b_model b)). split; [exact Hf|exact Hc].
Defined.
